(** * SearchBar and AnsiiRow: a shallow embedding of the parsley search bar

    The development follows [src/components/Search/SearchBar/index.tsx].
    The React function component is embedded as explicit state passing:
    the hook cells ([useState], [useMemo], [useEffect]), the debounce
    closures, the JavaScript timer queue and the calls that leave the
    component (breadcrumbs, [onSubmit], [onChange], DOM focus calls) are
    fields of one [World] record, and every handler of the component is a
    computation in a small state monad over it. *)

From Stdlib Require Import ZArith Lia Bool Ascii String List.
From stdpp Require Import base tactics option list strings.
Import ListNotations.
Local Open Scope string_scope.
Local Open Scope list_scope.

(* ===================================================================== *)
(** ** The search bar                                                     *)
(* ===================================================================== *)

Module SearchBar.

(** Modelled from the spec: the enum [SearchBarActions] of
    [constants/enums] is not part of the sources; the spec gives
    "enumeration {Search, Filter, Highlight}", in that declaration order. *)
Inductive SearchBarActions : Type := Search | Filter | Highlight.

#[global] Instance SearchBarActions_eq_dec : EqDecision SearchBarActions.
Proof. solve_decision. Defined.

(** The enum as the object JavaScript sees: keys and values in declaration
    order, which is what [Object.keys] and [Object.values] enumerate. *)
Definition SearchBarActions_object : list (string * SearchBarActions) :=
  [("Search", Search); ("Filter", Filter); ("Highlight", Highlight)].

Definition Object_keys {V} (o : list (string * V)) : list string := map fst o.
Definition Object_values {V} (o : list (string * V)) : list V := map snd o.

(** [o[k]] on an object: the first entry under that key, if any. *)
Fixpoint Object_get {V} (o : list (string * V)) (k : string) : option V :=
  match o with
  | [] => None
  | (k', v) :: o' => if String.eqb k' k then Some v else Object_get o' k
  end.

(** [Array.prototype.indexOf]: position of the first occurrence, -1 when
    there is none. *)
Fixpoint indexOf `{EqDecision A} (l : list A) (x : A) : Z :=
  match l with
  | [] => (-1)%Z
  | y :: l' =>
      if decide (y = x) then 0%Z
      else let i := indexOf l' x in if (i <? 0)%Z then (-1)%Z else (i + 1)%Z
  end.

(** Callbacks handed in by the parent are known by their identity only:
    [useMemo] compares them by reference, and a call is observed as a call
    of that identity. *)
Definition Callback := nat.

(** The props. [className] only styles the container and is left out. A
    callback the parent leaves out defaults to a function that does
    nothing; the worlds below are those of a parent that passes both. *)
Record SearchBarProps : Type := {
  disabled : bool;
  validator : string -> bool;
  validatorMessage : string;
  onSubmit : Callback;
  onChange : Callback
}.

(** The function the component hands to [debounce]:
    [(value) => onChange(selected, value)], with both captured. *)
Record ChangeFn : Type := {
  fn_onChange : Callback;
  fn_selected : SearchBarActions
}.

(** Payloads of the two breadcrumbs. *)
Inductive Payload : Type :=
| SubmitPayload (selected : SearchBarActions) (input : string)
| SelectPayload (value : SearchBarActions).

(** What leaves the component. *)
Inductive Effect : Type :=
| DomFocus
| DomSelect
| DomBlur
| LeaveBreadcrumb (name : string) (payload : Payload) (category : string)
| CallOnSubmit (cb : Callback) (selected : SearchBarActions) (value : string)
| CallOnChange (cb : Callback) (selected : SearchBarActions) (value : string).

(** A pending [setTimeout(() => fn(value), wait)]. *)
Record Timeout : Type := {
  t_id : nat;
  t_deadline : nat;
  t_fn : ChangeFn;
  t_arg : string
}.

(** The state one [debounce(fn, wait)] call closes over. *)
Record Debounced : Type := {
  d_fn : ChangeFn;
  d_wait : nat;
  d_timer : option nat
}.

Record World : Type := {
  props : SearchBarProps;
  (* hook cells *)
  input : string;                                   (* useState("") *)
  selected : SearchBarActions;                      (* useState(Search) *)
  effectDeps : option bool;                         (* [isSearch] seen last *)
  memoDeps : option (SearchBarActions * Callback);  (* [selected, onChange] *)
  memoValue : nat;                                  (* the memoised closure *)
  (* heap of debounce closures, by allocation order *)
  closures : list Debounced;
  (* JavaScript timers, by creation order *)
  now : nat;
  nextTimeout : nat;
  timers : list Timeout;
  (* the input element *)
  focused : bool;
  (* calls that left the component, oldest first *)
  log : list Effect
}.

Definition with_props (p : SearchBarProps) (w : World) : World :=
  {| props := p; input := input w; selected := selected w;
     effectDeps := effectDeps w; memoDeps := memoDeps w;
     memoValue := memoValue w; closures := closures w; now := now w;
     nextTimeout := nextTimeout w; timers := timers w;
     focused := focused w; log := log w |}.

Definition with_input (v : string) (w : World) : World :=
  {| props := props w; input := v; selected := selected w;
     effectDeps := effectDeps w; memoDeps := memoDeps w;
     memoValue := memoValue w; closures := closures w; now := now w;
     nextTimeout := nextTimeout w; timers := timers w;
     focused := focused w; log := log w |}.

Definition with_selected (m : SearchBarActions) (w : World) : World :=
  {| props := props w; input := input w; selected := m;
     effectDeps := effectDeps w; memoDeps := memoDeps w;
     memoValue := memoValue w; closures := closures w; now := now w;
     nextTimeout := nextTimeout w; timers := timers w;
     focused := focused w; log := log w |}.

Definition with_effectDeps (d : option bool) (w : World) : World :=
  {| props := props w; input := input w; selected := selected w;
     effectDeps := d; memoDeps := memoDeps w;
     memoValue := memoValue w; closures := closures w; now := now w;
     nextTimeout := nextTimeout w; timers := timers w;
     focused := focused w; log := log w |}.

Definition with_memo (d : option (SearchBarActions * Callback)) (i : nat)
    (w : World) : World :=
  {| props := props w; input := input w; selected := selected w;
     effectDeps := effectDeps w; memoDeps := d;
     memoValue := i; closures := closures w; now := now w;
     nextTimeout := nextTimeout w; timers := timers w;
     focused := focused w; log := log w |}.

Definition with_closures (c : list Debounced) (w : World) : World :=
  {| props := props w; input := input w; selected := selected w;
     effectDeps := effectDeps w; memoDeps := memoDeps w;
     memoValue := memoValue w; closures := c; now := now w;
     nextTimeout := nextTimeout w; timers := timers w;
     focused := focused w; log := log w |}.

Definition with_now (t : nat) (w : World) : World :=
  {| props := props w; input := input w; selected := selected w;
     effectDeps := effectDeps w; memoDeps := memoDeps w;
     memoValue := memoValue w; closures := closures w; now := t;
     nextTimeout := nextTimeout w; timers := timers w;
     focused := focused w; log := log w |}.

Definition with_timers (n : nat) (ts : list Timeout) (w : World) : World :=
  {| props := props w; input := input w; selected := selected w;
     effectDeps := effectDeps w; memoDeps := memoDeps w;
     memoValue := memoValue w; closures := closures w; now := now w;
     nextTimeout := n; timers := ts;
     focused := focused w; log := log w |}.

Definition with_focused (b : bool) (w : World) : World :=
  {| props := props w; input := input w; selected := selected w;
     effectDeps := effectDeps w; memoDeps := memoDeps w;
     memoValue := memoValue w; closures := closures w; now := now w;
     nextTimeout := nextTimeout w; timers := timers w;
     focused := b; log := log w |}.

Definition with_log (l : list Effect) (w : World) : World :=
  {| props := props w; input := input w; selected := selected w;
     effectDeps := effectDeps w; memoDeps := memoDeps w;
     memoValue := memoValue w; closures := closures w; now := now w;
     nextTimeout := nextTimeout w; timers := timers w;
     focused := focused w; log := l |}.

(** *** The state monad of handlers *)

Definition M (A : Type) : Type := World -> A * World.

Definition ret {A} (a : A) : M A := fun w => (a, w).
Definition bind {A B} (c : M A) (k : A -> M B) : M B :=
  fun w => let p := c w in k (fst p) (snd p).
Definition get : M World := fun w => (w, w).
Definition modify (f : World -> World) : M unit := fun w => (tt, f w).
Definition exec {A} (c : M A) (w : World) : World := snd (c w).
Definition skip : M unit := ret tt.

Declare Scope sb_scope.
Delimit Scope sb_scope with sb.
Notation "'let!' x ':=' c 'in' k" := (bind c (fun x => k))
  (at level 10, x name, c at level 100, k at level 200) : sb_scope.
Notation "c1 '>>' c2" := (bind c1 (fun _ => c2))
  (at level 90, right associativity) : sb_scope.
Local Open Scope sb_scope.

Definition emit (e : Effect) : M unit :=
  modify (fun w => with_log (log w ++ [e]) w).

(** The state setters of [useState]. The new value is read by the next
    render; the handler that calls the setter keeps the values of the
    render it was created in (its [Render] argument below). *)
Definition setInput (v : string) : M unit := modify (with_input v).
Definition setSelected (m : SearchBarActions) : M unit :=
  modify (with_selected m).

(** Collaborators that are only called. *)
Definition leaveBreadcrumb (name : string) (p : Payload) (cat : string)
    : M unit := emit (LeaveBreadcrumb name p cat).
Definition inputRef_focus : M unit :=
  emit DomFocus >> modify (with_focused true).
Definition inputRef_select : M unit := emit DomSelect.
Definition inputRef_blur : M unit :=
  emit DomBlur >> modify (with_focused false).

(** *** Timers and debounce *)

Definition setTimeout (fn : ChangeFn) (arg : string) (wait : nat) : M nat :=
  let! w := get in
  let id := nextTimeout w in
  modify (with_timers (S id)
            (timers w ++ [{| t_id := id; t_deadline := now w + wait;
                             t_fn := fn; t_arg := arg |}])) >>
  ret id.

Definition clearTimeout (id : option nat) : M unit :=
  match id with
  | None => skip
  | Some i =>
      modify (fun w =>
        with_timers (nextTimeout w)
          (List.filter (fun t => negb (t_id t =? i)%nat) (timers w)) w)
  end.

(** Modelled from the spec: [utils/debounce] is not part of the sources;
    the spec gives "Debounce(fn, delayMs) -> debouncedFn: standard
    trailing-edge debounce" and "delay invocation until no new calls
    arrive for a fixed window, then invoke once with the last arguments".
    [debounce] allocates the closure, with a timer variable of its own;
    a call of the function it returns ([callDebounced]) drops the pending
    timer of this closure and starts a new one. *)
Definition debounce (fn : ChangeFn) (wait : nat) : M nat :=
  let! w := get in
  modify (with_closures
            (closures w ++ [{| d_fn := fn; d_wait := wait;
                               d_timer := None |}])) >>
  ret (length (closures w)).

(** Modelled from the spec: a call of the function [debounce] returned
    ([utils/debounce] is not part of the sources), "standard trailing-edge
    debounce". *)
Definition callDebounced (i : nat) (value : string) : M unit :=
  let! w := get in
  match closures w !! i with
  | None => skip
  | Some d =>
      clearTimeout (d_timer d) >>
      let! id := setTimeout (d_fn d) value (d_wait d) in
      modify (fun w' =>
        with_closures
          (<[i := {| d_fn := d_fn d; d_wait := d_wait d;
                     d_timer := Some id |}]> (closures w')) w')
  end.

(** Running a timer's callback: [fn(value)], that is
    [onChange(selected, value)] with the captured [selected]. *)
Definition fire (t : Timeout) : Effect :=
  CallOnChange (fn_onChange (t_fn t)) (fn_selected (t_fn t)) (t_arg t).

Definition due (t0 : nat) (t : Timeout) : bool :=
  (t_deadline t <=? t0)%nat.

(** Timers run in the order of their deadlines, and in the order they
    were created when the deadlines are equal. *)
Fixpoint insertByDeadline (t : Timeout) (l : list Timeout) : list Timeout :=
  match l with
  | [] => [t]
  | u :: l' =>
      if (t_deadline t <? t_deadline u)%nat then t :: u :: l'
      else u :: insertByDeadline t l'
  end.

Definition byDeadline (ts : list Timeout) : list Timeout :=
  fold_left (fun sorted t => insertByDeadline t sorted) ts [].

(** Time passes: the timers whose deadline is reached run and leave the
    queue. *)
Definition elapse (ms : nat) : M unit :=
  modify (fun w =>
    let t0 := now w + ms in
    with_log
      (log w ++ map fire (byDeadline (List.filter (due t0) (timers w))))
      (with_timers (nextTimeout w)
         (List.filter (fun t => negb (due t0 t)) (timers w))
         (with_now t0 w))).

(** *** The component *)

(** What one render computes and its handlers close over. *)
Record Render : Type := {
  r_props : SearchBarProps;
  r_input : string;
  r_selected : SearchBarActions;
  r_debounced : nat            (* debouncedHandleOnChangeCallback *)
}.

Definition isFilter (r : Render) : bool := bool_decide (r_selected r = Filter).
Definition isHighlight (r : Render) : bool :=
  bool_decide (r_selected r = Highlight).
Definition isSearch (r : Render) : bool := bool_decide (r_selected r = Search).
Definition isValid (r : Render) : bool := validator (r_props r) (r_input r).

(** Modelled from the spec: the hook [useKeyboardShortcut] of [hooks] is
    not part of the sources; the spec gives "registers a (key,
    modifier-set) -> handler binding with options {disabled: bool,
    ignoreFocus: bool}", active only while enabled and, with
    [ignoreFocus], "regardless of current input focus". *)
Definition useKeyboardShortcut (disabled ignoreFocus : bool)
    (handler : M unit) : M unit :=
  let! w := get in
  if disabled then skip
  else if ignoreFocus || negb (focused w) then handler
  else skip.

Definition focusHandler : M unit := inputRef_focus >> inputRef_select.

Definition cycleHandler (r : Render) : M unit :=
  let SearchBarActionValues := Object_values SearchBarActions_object in
  let keyIndex :=
    Z.rem (indexOf SearchBarActionValues (r_selected r) + 1)
          (Z.of_nat (length SearchBarActionValues)) in
  match Object_keys SearchBarActions_object !! Z.to_nat keyIndex with
  | None => skip
  | Some nextKey =>
      match Object_get SearchBarActions_object nextKey with
      | None => skip
      | Some m => setSelected m
      end
  end.

Definition handleOnSubmit (r : Render) : M unit :=
  inputRef_blur >>
  (if isFilter r || isHighlight r then setInput "" else skip) >>
  leaveBreadcrumb "search-bar-submit"
    (SubmitPayload (r_selected r) (r_input r)) "user" >>
  emit (CallOnSubmit (onSubmit (r_props r)) (r_selected r) (r_input r)).

Definition handleOnChange (r : Render) (value : string) : M unit :=
  setInput value >>
  (if validator (r_props r) value
   then callDebounced (r_debounced r) value
   else skip).

Definition handleChangeSelect (value : SearchBarActions) : M unit :=
  setSelected value >>
  leaveBreadcrumb "search-bar-select" (SelectPayload value) "user".

(** The glyph slot of the input: the submit button (with its [disabled]
    attribute) while the input validates, the warning otherwise. *)
Inductive Icon : Type :=
| IconButton (btn_disabled : bool)
| IconWithTooltip (message : string).

Definition icon (r : Render) : Icon :=
  if isValid r
  then IconButton (disabled (r_props r) || (String.length (r_input r) =? 0)%nat)
  else IconWithTooltip (validatorMessage (r_props r)).

Definition onKeyPress (r : Render) (key : string) : M unit :=
  if String.eqb key "Enter" && isValid r then handleOnSubmit r else skip.

Definition onClick (r : Render) : M unit :=
  match icon r with
  | IconButton false => handleOnSubmit r
  | _ => skip
  end.

(** [useMemo(() => debounce(...), [selected, onChange])]: a new closure
    when a dependency changed, the memoised one otherwise. The closure it
    replaces is not touched. *)
Definition useMemo_debounced (sel : SearchBarActions) (cb : Callback)
    : M nat :=
  let! w := get in
  if bool_decide (memoDeps w = Some (sel, cb)) then ret (memoValue w)
  else
    let! i := debounce {| fn_onChange := cb; fn_selected := sel |} 1000 in
    modify (with_memo (Some (sel, cb)) i) >>
    ret i.

(** The body of the component up to its [return]. *)
Definition render : M Render :=
  let! w := get in
  let! debounced := useMemo_debounced (selected w) (onChange (props w)) in
  ret {| r_props := props w; r_input := input w;
         r_selected := selected w; r_debounced := debounced |}.

(** [useEffect(() => {...}, [isSearch])], run after the render is
    committed: on mount and whenever [isSearch] differs from the last
    render's. *)
Definition useEffect_autoSubmit (r : Render) : M unit :=
  let! w := get in
  if bool_decide (effectDeps w = Some (isSearch r)) then skip
  else
    modify (with_effectDeps (Some (isSearch r))) >>
    (if isSearch r && (0 <? String.length (r_input r))%nat
     then handleOnSubmit r else skip).

Definition rerender : M Render :=
  let! r := render in
  useEffect_autoSubmit r >>
  ret r.

(** The closures attached to the page between two events are those of
    the last render; [rerender_view] below shows they are these. *)
Definition view (w : World) : Render :=
  {| r_props := props w; r_input := input w;
     r_selected := selected w; r_debounced := memoValue w |}.

Inductive Key : Type := CtrlF | CtrlS.

(** What can happen to the mounted bar. The first four are calls of the
    handlers the component hands to its widgets: [onChange] and
    [onKeyPress] of the input, [onClick] of the glyph slot, [onChange] of
    the select. The handlers are run as written; of [disabled] the
    component itself only tests what is in its own body, the shortcuts'
    option and the button's attribute. *)
Inductive Event : Type :=
| InputChange (value : string)           (* onChange of the input *)
| InputKeyPress (key : string)           (* onKeyPress of the input *)
| SubmitClick                            (* a click on the glyph slot *)
| SelectChange (value : SearchBarActions)(* onChange of the select *)
| KeyDown (k : Key)                      (* a shortcut anywhere on the page *)
| Elapse (ms : nat)                      (* time passing *)
| ParentRender (p : SearchBarProps).     (* the parent passes new props *)

Definition dispatch (e : Event) (r : Render) : M unit :=
  match e with
  | InputChange value => handleOnChange r value
  | InputKeyPress key => onKeyPress r key
  | SubmitClick => onClick r
  | SelectChange value => handleChangeSelect value
  | KeyDown CtrlF =>
      useKeyboardShortcut (disabled (r_props r)) true focusHandler
  | KeyDown CtrlS =>
      useKeyboardShortcut (disabled (r_props r)) true (cycleHandler r)
  | Elapse ms => elapse ms
  | ParentRender p => modify (with_props p)
  end.

(** One event, handled to completion: the handler of the last render
    runs, then the component renders again and its effect runs. *)
Definition step (e : Event) (w : World) : World :=
  exec rerender (exec (dispatch e (view w)) w).

Definition run (es : list Event) (w : World) : World :=
  fold_left (fun w e => step e w) es w.

Definition unmounted (p : SearchBarProps) : World :=
  {| props := p; input := ""; selected := Search;
     effectDeps := None; memoDeps := None; memoValue := 0;
     closures := []; now := 0; nextTimeout := 0; timers := [];
     focused := false; log := [] |}.

Definition mount (p : SearchBarProps) : World := exec rerender (unmounted p).

(** The calls an event added to the log. *)
Definition emitted (e : Event) (w : World) : list Effect :=
  drop (length (log w)) (log (step e w)).

Definition is_onSubmit (e : Effect) : bool :=
  match e with CallOnSubmit _ _ _ => true | _ => false end.
Definition is_onChange (e : Effect) : bool :=
  match e with CallOnChange _ _ _ => true | _ => false end.

Definition onSubmit_calls (l : list Effect) : list Effect :=
  List.filter is_onSubmit l.
Definition onChange_calls (l : list Effect) : list Effect :=
  List.filter is_onChange l.

(** The hook cells agree with the state: what holds between two events. *)
Definition synced (w : World) : bool :=
  bool_decide (effectDeps w = Some (bool_decide (selected w = Search)))
  && bool_decide (memoDeps w = Some (selected w, onChange (props w)))
  && match closures w !! memoValue w with
     | Some d =>
         bool_decide (fn_onChange (d_fn d) = onChange (props w))
         && bool_decide (fn_selected (d_fn d) = selected w)
         && (d_wait d =? 1000)%nat
     | None => false
     end.

(** The three calls of one [handleOnSubmit], in order, for the render the
    handler belongs to. *)
Definition submitEffects (r : Render) : list Effect :=
  [DomBlur;
   LeaveBreadcrumb "search-bar-submit"
     (SubmitPayload (r_selected r) (r_input r)) "user";
   CallOnSubmit (onSubmit (r_props r)) (r_selected r) (r_input r)].

(** What the effect of the render of [w] logs: the calls of one
    [handleOnSubmit] when [isSearch] changed into true with a non-empty
    input, nothing otherwise ([rerender_log] below). *)
Definition autoSubmitEffects (w : World) : list Effect :=
  if bool_decide (effectDeps w = Some (bool_decide (selected w = Search)))
  then []
  else if bool_decide (selected w = Search)
          && (0 <? String.length (input w))%nat
       then submitEffects (view w)
       else [].

(** Events that leave both the mode and the props alone. *)
Definition keeps_deps (e : Event) : bool :=
  match e with
  | SelectChange _ | KeyDown CtrlS | ParentRender _ => false
  | _ => true
  end.

(** The timer a valid edit to [v] starts in [w]. *)
Definition editTimer (w : World) (v : string) : Timeout :=
  {| t_id := nextTimeout w;
     t_deadline := now w + 1000;
     t_fn := {| fn_onChange := onChange (props w);
                fn_selected := selected w |};
     t_arg := v |}.

(** At most one call is pending, and it is the one of the memoised
    closure. *)
Definition owned (w : World) : Prop :=
  timers w = [] \/
  exists t d, timers w = [t] /\ closures w !! memoValue w = Some d /\
              d_timer d = Some (t_id t).

(** The cycle as the spec words it: "Search -> Filter -> Highlight ->
    Search (wrap)". [cycleHandler] above is the code's computation of it. *)
Definition nextAction (m : SearchBarActions) : SearchBarActions :=
  match m with
  | Search => Filter
  | Filter => Highlight
  | Highlight => Search
  end.

(** What was logged between two worlds of one run. *)
Definition added (w w' : World) : list Effect :=
  drop (length (log w)) (log w').

(** A burst of edits: each value typed, then the pause before the next. *)
Definition edits (es : list (string * nat)) : list Event :=
  flat_map (fun e => [InputChange (fst e); Elapse (snd e)]) es.

(** A validator for the examples: a crude stand-in for "compiles as a
    regular expression", rejecting a pattern that opens a group or a class
    without closing it. *)
Fixpoint unclosed (depth : nat) (s : string) : bool :=
  match s with
  | EmptyString => negb (depth =? 0)%nat
  | String c s' =>
      if Ascii.eqb c "("%char || Ascii.eqb c "["%char
      then unclosed (S depth) s'
      else if Ascii.eqb c ")"%char || Ascii.eqb c "]"%char
      then match depth with
           | O => true
           | S d => unclosed d s'
           end
      else unclosed depth s'
  end.

Definition sampleProps : SearchBarProps :=
  {| disabled := false;
     validator := fun value => negb (unclosed 0 value);
     validatorMessage := "Invalid Input";
     onSubmit := 1;
     onChange := 2 |}.

(** The events whose handling the component itself makes depend on
    [disabled]: the two shortcuts (their [disabled] option) and the click
    on the submit button (its [disabled] attribute). *)
Definition gatedByDisabled (e : Event) : bool :=
  match e with
  | KeyDown _ | SubmitClick => true
  | _ => false
  end.

(** The props of the examples with the bar disabled. *)
Definition disabledProps : SearchBarProps :=
  {| disabled := true;
     validator := validator sampleProps;
     validatorMessage := validatorMessage sampleProps;
     onSubmit := onSubmit sampleProps;
     onChange := onChange sampleProps |}.

(** Events that leave the props as they are. *)
Definition keepsProps (e : Event) : bool :=
  match e with
  | ParentRender _ => false
  | _ => true
  end.

(** Events that are no edit of the input. *)
Definition isNoEdit (e : Event) : bool :=
  match e with
  | InputChange _ => false
  | _ => true
  end.

(** The time a list of events takes. *)
Fixpoint elapsed (es : list Event) : nat :=
  match es with
  | [] => 0
  | Elapse ms :: es' => ms + elapsed es'
  | _ :: es' => elapsed es'
  end.

End SearchBar.

(* ===================================================================== *)
(** ** The log line row                                                   *)
(* ===================================================================== *)

Module AnsiiRow.

(** The component [AnsiiRow] is not part of the sources, only its test
    file is. Everything in this module is modelled from the spec (section
    4.2 and the invariants of section 3); the assertions of the test file
    are replayed on the model further down. *)

(** Modelled from the spec: "HighlightRange: optional { lowerRange:
    number, upperRange?: number }, inclusive line-index bounds restricting
    where highlighting is applied; absent upperRange means unbounded
    above." *)
Record HighlightRange : Type := {
  lowerRange : nat;
  upperRange : option nat
}.

(** Modelled from the spec: "SearchTerm: optional compiled pattern
    (case-insensitive)". The patterns of the model are those built from
    single characters, [.], concatenation, alternation and [*], with the
    flag [i]: the regular core of the pattern language. Anchors, classes,
    bounded repetition, groups and look-around are not modelled. *)
Inductive Regex : Type :=
| Never                      (* matches no text, like an empty class *)
| Empty                      (* the empty pattern *)
| Chr (c : ascii)            (* one character, compared without case *)
| AnyChar                    (* . *)
| Seq (r1 r2 : Regex)        (* r1r2 *)
| Alt (r1 r2 : Regex)        (* r1|r2 *)
| Star (r : Regex).          (* r* *)

Definition SearchTerm := Regex.

(** A pattern without special characters, like [/highlight me/i] of the
    tests. *)
Fixpoint literal (s : string) : Regex :=
  match s with
  | EmptyString => Empty
  | String c s' => Seq (Chr c) (literal s')
  end.

(** Modelled from the spec: the part of the row's [data] prop the
    highlight depends on, with the accessor "getLine(index) -> string |
    undefined". *)
Record Data : Type := {
  getLine : nat -> option string;
  searchTerm : option SearchTerm;
  range : option HighlightRange
}.

#[local] Set Warnings "-register-all".

(** Modelled from the spec: what a row renders to, text and elements, an
    element with its "stable per-row test/identity hook" ([data-cy]) when
    it has one. *)
Inductive Node : Type :=
| Text (s : string)
| Element (tag : string) (dataCy : option string) (children : list Node).

(** Modelled from the spec: "matching is case-insensitive". Letters are
    the ASCII ones: an upper-case letter is compared as its lower-case
    counterpart. *)
Definition isUpper (c : ascii) : bool :=
  (65 <=? nat_of_ascii c)%nat && (nat_of_ascii c <=? 90)%nat.

Definition lower (c : ascii) : ascii :=
  if isUpper c then ascii_of_nat (nat_of_ascii c + 32) else c.

Definition eqb_ci (a b : ascii) : bool := Ascii.eqb (lower a) (lower b).

(** [.] matches any character but a line terminator. *)
Definition isLineTerminator (c : ascii) : bool :=
  (nat_of_ascii c =? 10)%nat || (nat_of_ascii c =? 13)%nat.

(** Whether the pattern matches the empty text, and what is left of the
    pattern after one character of the text. *)
Fixpoint nullable (r : Regex) : bool :=
  match r with
  | Never | Chr _ | AnyChar => false
  | Empty | Star _ => true
  | Seq r1 r2 => nullable r1 && nullable r2
  | Alt r1 r2 => nullable r1 || nullable r2
  end.

Fixpoint deriv (c : ascii) (r : Regex) : Regex :=
  match r with
  | Never | Empty => Never
  | Chr a => if eqb_ci a c then Empty else Never
  | AnyChar => if isLineTerminator c then Never else Empty
  | Seq r1 r2 =>
      if nullable r1
      then Alt (Seq (deriv c r1) r2) (deriv c r2)
      else Seq (deriv c r1) r2
  | Alt r1 r2 => Alt (deriv c r1) (deriv c r2)
  | Star r' => Seq (deriv c r') (Star r')
  end.

(** Length of the longest beginning of the text the pattern matches. *)
Fixpoint longestPrefix (r : Regex) (s : list ascii) : option nat :=
  match s with
  | [] => if nullable r then Some 0 else None
  | c :: s' =>
      match longestPrefix (deriv c r) s' with
      | Some n => Some (S n)
      | None => if nullable r then Some 0 else None
      end
  end.

(** Modelled from the spec: the search of a compiled pattern in a text,
    as a pattern's [exec] does it: the leftmost place where the pattern
    matches, with the longest match there, as position and length. *)
Fixpoint exec (r : Regex) (s : list ascii) : option (nat * nat) :=
  match longestPrefix r s with
  | Some len => Some (0, len)
  | None =>
      match s with
      | [] => None
      | _ :: s' => (fun m => (S (fst m), snd m)) <$> exec r s'
      end
  end.

Definition matches (t : SearchTerm) (text : string) : bool :=
  bool_decide (is_Some (exec t (list_ascii_of_string text))).

(** What it is for a pattern to match a text, in the spec's words
    "the line text matches it", with "matching is case-insensitive"
    written out on character codes: two characters are the same letter
    when they are equal or one is an upper-case ASCII letter and the other
    the character 32 codes above it. *)
Definition sameLetter (a b : ascii) : Prop :=
  a = b \/
  (65 <= nat_of_ascii a <= 90 /\ nat_of_ascii b = nat_of_ascii a + 32) \/
  (65 <= nat_of_ascii b <= 90 /\ nat_of_ascii a = nat_of_ascii b + 32).

Inductive Matches : Regex -> list ascii -> Prop :=
| MEmpty : Matches Empty []
| MChr c d : sameLetter c d -> Matches (Chr c) [d]
| MAny d :
    nat_of_ascii d <> 10 -> nat_of_ascii d <> 13 -> Matches AnyChar [d]
| MSeq r1 r2 s1 s2 :
    Matches r1 s1 -> Matches r2 s2 -> Matches (Seq r1 r2) (s1 ++ s2)
| MAltL r1 r2 s : Matches r1 s -> Matches (Alt r1 r2) s
| MAltR r1 r2 s : Matches r2 s -> Matches (Alt r1 r2) s
| MStarNil r : Matches (Star r) []
| MStarApp r s1 s2 :
    Matches r s1 -> Matches (Star r) s2 -> Matches (Star r) (s1 ++ s2).

(** Modelled from the spec: "(c) the line's index falls within
    HighlightRange when one is supplied (both bounds inclusive ...)";
    "if no HighlightRange is supplied, every matching line is eligible
    regardless of index". *)
Definition inRange (r : option HighlightRange) (i : nat) : bool :=
  match r with
  | None => true
  | Some r =>
      (lowerRange r <=? i)%nat &&
      match upperRange r with
      | None => true
      | Some u => (i <=? u)%nat
      end
  end.

(** Modelled from the spec: step 5 of [render], "wrap the matching
    substring in a highlight decoration element". *)
Definition highlightText (t : SearchTerm) (text : string) : list Node :=
  match exec t (list_ascii_of_string text) with
  | None => [Text text]
  | Some (pos, n) =>
      [Text (substring 0 pos text);
       Element "mark" (Some "highlight") [Text (substring pos n text)];
       Text (substring (pos + n) (String.length text - (pos + n)) text)]
  end.

(** Modelled from the spec: [render(lineIndex, rowLayoutProps)], steps 1,
    2 and 5. "If text is undefined, render nothing (empty row, no
    container element)"; "If defined (including empty string), render a
    row container with a stable per-row test/identity hook". The styling
    of ANSI runs and the anchors of URLs (steps 3 and 4) add neither a
    row container nor a highlight element and are left out. *)
Definition render (d : Data) (lineNumber : nat) : option Node :=
  match getLine d lineNumber with
  | None => None
  | Some text =>
      Some (Element "div" (Some "ansii-row")
              (match searchTerm d with
               | Some t =>
                   if inRange (range d) lineNumber
                   then highlightText t text
                   else [Text text]
               | None => [Text text]
               end))
  end.

(** Modelled from the spec: [queryByDataCy] of the test utilities
    ([test_utils] is not part of the sources), by which the tests look for
    "a container element" and "a highlight decoration": the first element,
    in document order, carrying that [data-cy]. *)
Fixpoint queryByDataCy (cy : string) (n : Node) : option Node :=
  match n with
  | Text _ => None
  | Element _ dataCy children =>
      if bool_decide (dataCy = Some cy) then Some n
      else (fix first (l : list Node) : option Node :=
              match l with
              | [] => None
              | c :: l' =>
                  match queryByDataCy cy c with
                  | Some m => Some m
                  | None => first l'
                  end
              end) children
  end.

Fixpoint textContent (n : Node) : string :=
  match n with
  | Text s => s
  | Element _ _ children =>
      (fix cat (l : list Node) : string :=
         match l with
         | [] => ""
         | c :: l' => String.append (textContent c) (cat l')
         end) children
  end.

(** The queries of the test file on a rendered row. *)
Definition screen_queryByDataCy (cy : string) (row : option Node)
    : option Node :=
  match row with
  | None => None
  | Some n => queryByDataCy cy n
  end.

Definition hasRow (d : Data) (i : nat) : bool :=
  bool_decide (is_Some (screen_queryByDataCy "ansii-row" (render d i))).

Definition highlighted (d : Data) (i : nat) : bool :=
  bool_decide (is_Some (screen_queryByDataCy "highlight" (render d i))).

(** The fixtures of the test file. *)
Definition logLines : list string :=
  ["[2022/08/30 14:53:58.774] [grip] 2022/08/30 14:53:17 [p=debug]: [commit='536cdcab21b907c87cd14751ad523ad1d8f23d07' operation='github api query' query='536cdcab21b907c87cd14751ad523ad1d8f23d07' repo='evergreen-ci/evergreen' size='-1' status='200 OK']";
   "[2022/08/30 14:53:58.774] [grip] 2022/08/30 14:53:17 [p=debug]: [message='created build' name='lint' project='mci' project_identifier='' runner='repotracker' version='_536cdcab21b907c87cd14751ad523ad1d8f23d07']";
   "[2022/08/30 14:53:58.774] [grip] 2022/08/30 14:53:17 [p=debug]: [message='created build' name='osx' project='mci' project_identifier='' runner='repotracker' version='_536cdcab21b907c87cd14751ad523ad1d8f23d07']";
   "[2022/08/30 14:53:58.774] [grip] 2022/08/30 14:53:17 [p=debug]: [message='created build' name='race-detector' project='mci' project_identifier='' runner='repotracker' version='_536cdcab21b907c87cd14751ad523ad1d8f23d07']";
   "[2022/08/30 14:53:58.774] [grip] 2022/08/30 14:53:17 [p=debug]: [message='created build' name='ubuntu1604' project='mci' project_identifier='' runner='repotracker' version='_536cdcab21b907c87cd14751ad523ad1d8f23d07']";
   "[2022/08/30 14:53:58.774] [grip] 2022/08/30 14:53:17 [p=debug]: [message='created build' name='ubuntu1804-arm64' project='mci' project_identifier='' runner='repotracker' version='_536cdcab21b907c87cd14751ad523ad1d8f23d07']";
   "[2022/08/30 14:53:58.774] [grip] 2022/08/30 14:53:17 [p=debug]: [message='created build' name='windows' project='mci' project_identifier='' runner='repotracker' version='_536cdcab21b907c87cd14751ad523ad1d8f23d07']";
   "[2022/08/30 14:53:58.774] [grip] 2022/08/30 14:53:17 [p=info]: [hash='536cdcab21b907c87cd14751ad523ad1d8f23d07' message='successfully created version' project='mci' runner='repotracker' version='_536cdcab21b907c87cd14751ad523ad1d8f23d07']";
   "Some line with a url https://www.google.com";
   "some random text that should not be highlighted but highlight me should"].

Definition data : Data :=
  {| getLine := fun index => logLines !! index;
     searchTerm := None;
     range := Some {| lowerRange := 0; upperRange := None |} |}.

End AnsiiRow.

(* ===================================================================== *)
(** ** Facts about the search bar                                         *)
(* ===================================================================== *)

Module SearchBarFacts.
Import SearchBar.
Local Open Scope sb_scope.

Ltac sb_unfold :=
  unfold step, emitted, added, mount, exec, rerender, render,
    useEffect_autoSubmit, useMemo_debounced, dispatch, handleOnChange,
    handleChangeSelect, onClick, icon, onKeyPress, useKeyboardShortcut,
    focusHandler, callDebounced, debounce, setTimeout, clearTimeout, elapse,
    leaveBreadcrumb, inputRef_blur, inputRef_focus, inputRef_select,
    setInput, setSelected, emit, isSearch, isFilter, isHighlight, isValid,
    view, skip, bind, ret, get, modify in *.

Lemma handleOnSubmit_run r w :
  handleOnSubmit r w =
  (tt, with_log (log w ++ submitEffects r)
         (with_focused false
            (if isFilter r || isHighlight r then with_input "" w else w))).
Proof.
  unfold handleOnSubmit, submitEffects. sb_unfold. cbn.
  destruct (_ || _); cbn; unfold with_log, with_focused, with_input; cbn;
    rewrite <- !app_assoc; reflexivity.
Qed.

Lemma cycleHandler_run r w :
  cycleHandler r w = (tt, with_selected (nextAction (r_selected r)) w).
Proof. unfold cycleHandler. destruct (r_selected r); reflexivity. Qed.

#[local] Arguments handleOnSubmit : simpl never.
#[local] Arguments cycleHandler : simpl never.
#[local] Arguments step : simpl never.
#[local] Arguments due : simpl never.
#[local] Arguments byDeadline : simpl never.
#[local] Arguments editTimer : simpl never.

Ltac sb_case :=
  first [ rewrite handleOnSubmit_run in *
        | rewrite cycleHandler_run in *
        | case_bool_decide
        | case_match ];
  unfold isFilter, isHighlight, isSearch, isValid in *; cbn in *.

Ltac sb_prune := try contradiction; try congruence; try done.

Ltac sb_crush := sb_unfold; cbn in *; repeat (sb_case; sb_prune).

Lemma rerender_log w :
  log (exec rerender w) =
  log w ++ autoSubmitEffects w.
Proof.
  unfold autoSubmitEffects. sb_crush; rewrite ?app_nil_r; try reflexivity; try congruence.
Qed.

Lemma rerender_state w :
  props (exec rerender w) = props w /\
  input (exec rerender w) = input w /\
  selected (exec rerender w) = selected w /\
  now (exec rerender w) = now w /\
  nextTimeout (exec rerender w) = nextTimeout w /\
  timers (exec rerender w) = timers w.
Proof.
  sb_crush; repeat split; try reflexivity; try congruence.
Qed.

Lemma rerender_hooks w :
  effectDeps (exec rerender w) = Some (bool_decide (selected w = Search)) /\
  memoDeps (exec rerender w) = Some (selected w, onChange (props w)).
Proof.
  sb_crush; repeat split; try reflexivity; try congruence.
Qed.

(** The handlers of a render are those of the state it left behind: no
    second render is due before the next event. *)
Lemma rerender_view w : fst (rerender w) = view (exec rerender w).
Proof.
  sb_crush; try reflexivity; try congruence.
Qed.

Lemma synced_spec w :
  synced w = true ->
  effectDeps w = Some (bool_decide (selected w = Search)) /\
  memoDeps w = Some (selected w, onChange (props w)) /\
  exists d, closures w !! memoValue w = Some d /\
    d_fn d = {| fn_onChange := onChange (props w);
                fn_selected := selected w |} /\
    d_wait d = 1000.
Proof.
  unfold synced. intros H.
  apply andb_true_iff in H as [H H3]. apply andb_true_iff in H as [H1 H2].
  apply bool_decide_eq_true in H1, H2. split; [done|]. split; [done|].
  destruct (closures w !! memoValue w) as [d|]; [|done].
  apply andb_true_iff in H3 as [H3 H5]. apply andb_true_iff in H3 as [H3 H4].
  apply bool_decide_eq_true in H3, H4. apply Nat.eqb_eq in H5.
  exists d. split; [done|]. split; [|done].
  destruct d as [[cb sel] wt tm]; cbn in *. congruence.
Qed.

Lemma fire_not_onSubmit cb m p ts :
  ~ In (CallOnSubmit cb m p) (map fire ts).
Proof. intros H. apply in_map_iff in H as (t & Ht & _). discriminate. Qed.

Ltac sb_log :=
  rewrite <- ?app_assoc, ?drop_app_length, ?drop_all, ?app_nil_r in *;
  cbn in *.

Lemma step_log e w :
  log (step e w) =
  log (exec (dispatch e (view w)) w)
  ++ autoSubmitEffects (exec (dispatch e (view w)) w).
Proof. unfold step. apply rerender_log. Qed.

Lemma step_input e w :
  input (step e w) = input (exec (dispatch e (view w)) w).
Proof. unfold step. apply rerender_state. Qed.

Lemma step_selected e w :
  selected (step e w) = selected (exec (dispatch e (view w)) w).
Proof. unfold step. apply rerender_state. Qed.

Lemma step_props e w :
  props (step e w) = props (exec (dispatch e (view w)) w).
Proof. unfold step. apply rerender_state. Qed.

Lemma length_zero_empty (s : string) : String.length s = 0 -> s = "".
Proof. destruct s; [done|discriminate]. Qed.

Ltac sb_length :=
  repeat match goal with
    | H : String.length _ = 0 |- _ => apply length_zero_empty in H
    | H1 : ?s = "", H2 : String.length ?s = S _ |- _ =>
        rewrite H1 in H2; discriminate H2
    end;
  subst; sb_prune.

Lemma rerender_id w :
  effectDeps w = Some (bool_decide (selected w = Search)) ->
  memoDeps w = Some (selected w, onChange (props w)) ->
  exec rerender w = w.
Proof.
  intros He Hm. sb_crush.
Qed.

Lemma dispatch_keeps_deps e r w :
  keeps_deps e = true ->
  effectDeps (exec (dispatch e r) w) = effectDeps w /\
  memoDeps (exec (dispatch e r) w) = memoDeps w /\
  selected (exec (dispatch e r) w) = selected w /\
  props (exec (dispatch e r) w) = props w.
Proof.
  intros Hk. destruct e as [v|key| |v|[]|ms|p']; try discriminate;
    sb_crush; repeat split; reflexivity.
Qed.

Lemma step_quiet e w :
  synced w = true -> keeps_deps e = true ->
  step e w = exec (dispatch e (view w)) w.
Proof.
  intros Hs Hk. apply synced_spec in Hs as (He & Hm & _).
  destruct (dispatch_keeps_deps e (view w) w Hk) as (E1 & E2 & E3 & E4).
  unfold step. apply rerender_id; [rewrite E1, E3 | rewrite E2, E3, E4]; done.
Qed.

Lemma synced_intro w d :
  effectDeps w = Some (bool_decide (selected w = Search)) ->
  memoDeps w = Some (selected w, onChange (props w)) ->
  closures w !! memoValue w = Some d ->
  d_fn d = {| fn_onChange := onChange (props w);
              fn_selected := selected w |} ->
  d_wait d = 1000 ->
  synced w = true.
Proof.
  intros He Hm Hd Hfn Hw. unfold synced. rewrite Hd, Hfn, Hw. cbn.
  rewrite !bool_decide_eq_true_2 by done. reflexivity.
Qed.

Lemma rerender_memo w :
  (memoDeps w = Some (selected w, onChange (props w)) ->
   closures (exec rerender w) = closures w /\
   memoValue (exec rerender w) = memoValue w) /\
  (memoDeps w <> Some (selected w, onChange (props w)) ->
   closures (exec rerender w) =
     closures w ++ [{| d_fn := {| fn_onChange := onChange (props w);
                                  fn_selected := selected w |};
                       d_wait := 1000; d_timer := None |}] /\
   memoValue (exec rerender w) = length (closures w)).
Proof. split; intros Hm; sb_crush. Qed.

Lemma rerender_synced w :
  (forall sel cb, memoDeps w = Some (sel, cb) ->
     exists d, closures w !! memoValue w = Some d /\
       d_fn d = {| fn_onChange := cb; fn_selected := sel |} /\
       d_wait d = 1000) ->
  synced (exec rerender w) = true.
Proof.
  intros Hmemo.
  destruct (rerender_hooks w) as [He Hm].
  destruct (rerender_state w) as (Hp & _ & Hsel & _).
  destruct (rerender_memo w) as [Hsame Hnew].
  destruct (decide (memoDeps w = Some (selected w, onChange (props w))))
    as [Heq|Hne].
  - destruct (Hsame Heq) as [Hc Hv].
    destruct (Hmemo _ _ Heq) as (d & Hd & Hfn & Hw).
    apply (synced_intro _ d); rewrite ?Hsel, ?Hp, ?Hc, ?Hv; done.
  - destruct (Hnew Hne) as [Hc Hv].
    eapply synced_intro; rewrite ?Hsel, ?Hp, ?Hc, ?Hv; try done.
    + apply list_lookup_middle. reflexivity.
    + reflexivity.
    + reflexivity.
Qed.

Lemma mount_synced p : synced (mount p) = true.
Proof. apply rerender_synced. intros sel cb Hm. discriminate Hm. Qed.

Lemma dispatch_memo e r w :
  (forall sel cb, memoDeps w = Some (sel, cb) ->
     exists d, closures w !! memoValue w = Some d /\
       d_fn d = {| fn_onChange := cb; fn_selected := sel |} /\
       d_wait d = 1000) ->
  forall sel cb, memoDeps (exec (dispatch e r) w) = Some (sel, cb) ->
     exists d, closures (exec (dispatch e r) w)
                 !! memoValue (exec (dispatch e r) w) = Some d /\
       d_fn d = {| fn_onChange := cb; fn_selected := sel |} /\
       d_wait d = 1000.
Proof.
  intros Hmemo sel cb.
  destruct e as [v|key| |v|[]|ms|p']; sb_crush; try (apply Hmemo; done).
  all: intros Hm; destruct (Hmemo _ _ Hm) as (d0 & Hd0 & Hfn & Hw).
  all: destruct (decide (r_debounced r = memoValue w)) as [Heq|Hne].
  all: try (rewrite list_lookup_insert_ne by done; eauto).
  all: rewrite Heq in *; rewrite list_lookup_insert_eq
         by (eapply lookup_lt_Some; eassumption).
  all: eexists; split; [reflexivity|]; cbn; simplify_eq; done.
Qed.

Lemma step_synced e w : synced w = true -> synced (step e w) = true.
Proof.
  intros Hs. apply synced_spec in Hs as (He & Hm & d & Hd & Hfn & Hw).
  unfold step. apply rerender_synced. apply dispatch_memo.
  intros sel cb Hm'. rewrite Hm in Hm'. simplify_eq. eauto.
Qed.

Lemma run_synced es w : synced w = true -> synced (run es w) = true.
Proof.
  revert w. induction es as [|e es IH]; intros w Hs; [done|].
  cbn. apply IH, step_synced, Hs.
Qed.

Lemma fire_no_onSubmit ts : onSubmit_calls (map fire ts) = [].
Proof. induction ts as [|t ts IH]; [done|]. cbn. exact IH. Qed.

Lemma onSubmit_calls_app l1 l2 :
  onSubmit_calls (l1 ++ l2) = onSubmit_calls l1 ++ onSubmit_calls l2.
Proof. apply List.filter_app. Qed.

(** Enter and the submit button, the two explicit submit paths, are both
    closed while the input does not validate. *)
Lemma explicit_submit_gated w e :
  synced w = true ->
  validator (props w) (input w) = false ->
  (exists key, e = InputKeyPress key) \/ e = SubmitClick ->
  onSubmit_calls (emitted e w) = [].
Proof.
  intros Hs Hv He. unfold emitted.
  rewrite step_quiet by (destruct He as [[k ->]| ->]; done).
  destruct He as [[k ->]| ->]; sb_unfold; cbn;
    rewrite ?Hv, ?andb_false_r; cbn; repeat (sb_case; sb_prune);
    sb_log; sb_prune.
Qed.

(** C1: while the input does not validate, a mode change into Search
    still runs the auto-submit. Evaluated from the mounted bar: Filter is
    picked, an unclosed group is typed, Search is picked again, and
    [onSubmit] is called with the pattern the validator rejects. *)
Theorem autosubmit_ignores_validator :
  let w := run [SelectChange Filter; InputChange "("] (mount sampleProps) in
  validator (props w) (input w) = false /\
  onSubmit_calls (emitted (SelectChange Search) w) =
    [CallOnSubmit (onSubmit sampleProps) Search "("].
Proof. split; reflexivity. Qed.

(** C5: whatever event leads to a submit, the pattern it passes is the
    input of that moment, and afterwards the input is the empty string
    when the submitted mode is Filter or Highlight and is that same
    pattern, unchanged, when the mode is Search. *)
Theorem submit_clears_unless_search w e cb m p :
  synced w = true ->
  In (CallOnSubmit cb m p) (emitted e w) ->
  p = input w /\
  input (step e w) =
    (if bool_decide (m = Filter \/ m = Highlight) then "" else input w).
Proof.
  intros Hs Hin. apply synced_spec in Hs as (He & Hm & d & Hd & Hfn & Hw).
  unfold emitted in Hin. rewrite step_log in Hin. rewrite step_input.
  unfold autoSubmitEffects in Hin.
  destruct e as [v|key| |v|[]|ms|p'].
  all: sb_crush; sb_log; sb_prune.
  all: try (exfalso; eapply fire_not_onSubmit; eassumption).
  all: try (intuition (simplify_eq; congruence)).
Qed.

Lemma submit_clears_unless_search_witness :
  let w := run [SelectChange Filter; InputChange "x"] (mount sampleProps) in
  synced w = true /\
  In (CallOnSubmit 1 Filter "x") (emitted (InputKeyPress "Enter") w) /\
  "x" = input w /\
  input (step (InputKeyPress "Enter") w) = "".
Proof.
  cbv zeta.
  assert (Hs : synced (run [SelectChange Filter; InputChange "x"]
                         (mount sampleProps)) = true) by reflexivity.
  assert (Hin : In (CallOnSubmit 1 Filter "x")
                  (emitted (InputKeyPress "Enter")
                     (run [SelectChange Filter; InputChange "x"]
                        (mount sampleProps)))).
  { vm_compute. right. right. left. reflexivity. }
  split; [exact Hs|]. split; [exact Hin|].
  exact (submit_clears_unless_search _ _ _ _ _ Hs Hin).
Defined.

(** C9: a submit in Filter or Highlight mode hands [onSubmit] and the
    breadcrumb the mode and the pattern of the moment the submit fired,
    although the same submit leaves the input empty. *)
Theorem submit_passes_pattern_before_clear w e cb m p :
  synced w = true ->
  In (CallOnSubmit cb m p) (emitted e w) ->
  m = Filter \/ m = Highlight ->
  m = selected w /\ p = input w /\ cb = onSubmit (props w) /\
  In (LeaveBreadcrumb "search-bar-submit" (SubmitPayload m p) "user")
     (emitted e w) /\
  input (step e w) = "".
Proof.
  intros Hs Hin Hmode.
  apply synced_spec in Hs as (He & Hm & d & Hd & Hfn & Hw).
  unfold emitted in *. rewrite step_log in *. rewrite step_input.
  unfold autoSubmitEffects in *.
  destruct e as [v|key| |v|[]|ms|p'].
  all: sb_crush; sb_log; sb_prune.
  all: try (exfalso; eapply fire_not_onSubmit; eassumption).
  all: try (intuition (simplify_eq; congruence)).
Qed.

Lemma submit_passes_pattern_before_clear_witness :
  let w := run [SelectChange Highlight; InputChange "err"]
             (mount sampleProps) in
  synced w = true /\
  In (CallOnSubmit 1 Highlight "err") (emitted SubmitClick w) /\
  (Highlight = Filter \/ Highlight = Highlight) /\
  Highlight = selected w /\ "err" = input w /\ 1 = onSubmit (props w) /\
  In (LeaveBreadcrumb "search-bar-submit" (SubmitPayload Highlight "err")
        "user") (emitted SubmitClick w) /\
  input (step SubmitClick w) = "".
Proof.
  cbv zeta.
  assert (Hs : synced (run [SelectChange Highlight; InputChange "err"]
                         (mount sampleProps)) = true) by reflexivity.
  assert (Hin : In (CallOnSubmit 1 Highlight "err")
                  (emitted SubmitClick
                     (run [SelectChange Highlight; InputChange "err"]
                        (mount sampleProps)))).
  { vm_compute. right. right. left. reflexivity. }
  assert (Hmode : Highlight = Filter \/ Highlight = Highlight)
    by (right; reflexivity).
  split; [exact Hs|]. split; [exact Hin|]. split; [exact Hmode|].
  exact (submit_passes_pattern_before_clear _ _ _ _ _ Hs Hin Hmode).
Defined.

(** C6: while the bar is enabled, Ctrl+S moves the mode to the next value
    in declaration order, Highlight wrapping to Search, whether or not the
    input has focus; three presses bring the mode back. *)
Theorem ctrl_s_cycles_modes w (focus : bool) :
  disabled (props w) = false ->
  selected (step (KeyDown CtrlS) (with_focused focus w))
    = nextAction (selected w) /\
  selected (run [KeyDown CtrlS; KeyDown CtrlS; KeyDown CtrlS]
              (with_focused focus w)) = selected w.
Proof.
  intros Hd.
  assert (Hstep : forall w', disabled (props w') = false ->
            selected (step (KeyDown CtrlS) w') = nextAction (selected w') /\
            disabled (props (step (KeyDown CtrlS) w')) = false).
  { intros w' Hd'. rewrite step_selected, step_props. sb_crush. }
  destruct (Hstep (with_focused focus w) Hd) as [E1 D1].
  split; [exact E1|]. unfold run; cbn [fold_left].
  destruct (Hstep _ D1) as [E2 D2]. destruct (Hstep _ D2) as [E3 _].
  rewrite E3, E2, E1. cbn. destruct (selected w); reflexivity.
Qed.

Lemma ctrl_s_cycles_modes_witness :
  let w := run [InputChange "warn"] (mount sampleProps) in
  disabled (props w) = false /\
  selected (step (KeyDown CtrlS) (with_focused true w)) = Filter /\
  selected (run [KeyDown CtrlS; KeyDown CtrlS; KeyDown CtrlS]
              (with_focused true w)) = Search.
Proof.
  cbv zeta. split; [reflexivity|].
  exact (ctrl_s_cycles_modes (run [InputChange "warn"] (mount sampleProps))
           true eq_refl).
Defined.

Lemma autosubmit_cases w e :
  synced w = true ->
  (selected w <> Search -> selected (step e w) = Search ->
   onSubmit_calls (emitted e w) =
     if bool_decide (input w = "") then []
     else [CallOnSubmit (onSubmit (props w)) Search (input w)]) /\
  (selected w = Search \/ selected (step e w) <> Search ->
   (forall key, e <> InputKeyPress key) -> e <> SubmitClick ->
   onSubmit_calls (emitted e w) = []).
Proof.
  intros Hs. apply synced_spec in Hs as (He & Hm & d & Hd & Hfn & Hw).
  unfold emitted. rewrite step_log, step_selected.
  unfold autoSubmitEffects.
  split.
  - intros Hns Hsel.
    destruct e as [v|key| |v|[]|ms|p']; sb_crush; sb_log; sb_prune;
      sb_length.
  - intros Hsel Hkey Hclick.
    destruct e as [v|key| |v|[]|ms|p'];
      try (exfalso; apply Hclick; reflexivity);
      try (exfalso; eapply Hkey; reflexivity);
      sb_crush; sb_log; sb_prune; rewrite ?fire_no_onSubmit; sb_length;
      destruct Hsel; congruence.
Qed.

(** C4: for an event other than Enter and a click on the submit button,
    [onSubmit] is called exactly once, with the current pattern, when the
    event takes the mode from Filter or Highlight into Search and the
    pattern is not empty; it is not called when the pattern is empty, nor
    by an event that is no such transition, however often the bar
    renders. *)
Theorem autosubmit_once_per_transition w e :
  synced w = true ->
  (forall key, e <> InputKeyPress key) -> e <> SubmitClick ->
  onSubmit_calls (emitted e w) =
    if bool_decide (selected w <> Search /\ selected (step e w) = Search
                    /\ input w <> "")
    then [CallOnSubmit (onSubmit (props w)) Search (input w)]
    else [].
Proof.
  intros Hs Hkey Hclick.
  case_bool_decide as Hc;
    destruct (autosubmit_cases w e Hs) as [Hin Hout].
  - destruct Hc as (Hfrom & Hto & Hne).
    rewrite (Hin Hfrom Hto). rewrite bool_decide_eq_false_2 by done. done.
  - destruct (decide (selected w = Search)) as [Hfrom|Hfrom];
      [apply Hout; auto|].
    destruct (decide (selected (step e w) = Search)) as [Hto|Hto];
      [|apply Hout; auto].
    rewrite (Hin Hfrom Hto). case_bool_decide as Hi; [done|].
    exfalso. apply Hc. auto.
Qed.

Lemma autosubmit_once_per_transition_witness :
  let w := run [SelectChange Highlight; InputChange "err"]
             (mount sampleProps) in
  synced w = true /\
  (forall key, KeyDown CtrlS <> InputKeyPress key) /\
  KeyDown CtrlS <> SubmitClick /\
  onSubmit_calls (emitted (KeyDown CtrlS) w) =
    [CallOnSubmit 1 Search "err"].
Proof.
  cbv zeta.
  assert (Hkey : forall key, KeyDown CtrlS <> InputKeyPress key)
    by (intros key H; discriminate H).
  assert (Hclick : KeyDown CtrlS <> SubmitClick)
    by (intros H; discriminate H).
  split; [reflexivity|]. split; [exact Hkey|]. split; [exact Hclick|].
  exact (autosubmit_once_per_transition
           (run [SelectChange Highlight; InputChange "err"]
              (mount sampleProps))
           (KeyDown CtrlS) eq_refl Hkey Hclick).
Defined.

(** Every world the mounted bar can get into is synced. *)
Lemma reachable_synced p es : synced (run es (mount p)) = true.
Proof. apply run_synced, mount_synced. Qed.

(** *** Timers *)

Lemma fire_no_onChange_in_submit w : onChange_calls (autoSubmitEffects w) = [].
Proof. unfold autoSubmitEffects. repeat case_match; reflexivity. Qed.

Lemma onChange_calls_app l1 l2 :
  onChange_calls (l1 ++ l2) = onChange_calls l1 ++ onChange_calls l2.
Proof. apply List.filter_app. Qed.

Lemma onChange_calls_fire ts : onChange_calls (map fire ts) = map fire ts.
Proof.
  unfold onChange_calls. induction ts as [|t ts IH]; [done|].
  cbn. f_equal. exact IH.
Qed.

Lemma elapse_fields w ms :
  synced w = true ->
  timers (step (Elapse ms) w)
    = List.filter (fun t => negb (due (now w + ms) t)) (timers w) /\
  log (step (Elapse ms) w)
    = log w ++ map fire (byDeadline
                           (List.filter (due (now w + ms)) (timers w))) /\
  now (step (Elapse ms) w) = now w + ms /\
  props (step (Elapse ms) w) = props w /\
  selected (step (Elapse ms) w) = selected w /\
  input (step (Elapse ms) w) = input w /\
  closures (step (Elapse ms) w) = closures w /\
  memoValue (step (Elapse ms) w) = memoValue w.
Proof. intros Hs. rewrite step_quiet by done. repeat split. Qed.

Lemma input_valid_fields w v :
  synced w = true -> disabled (props w) = false ->
  validator (props w) v = true -> owned w ->
  timers (step (InputChange v) w) = [editTimer w v] /\
  (exists d, closures (step (InputChange v) w)
               !! memoValue (step (InputChange v) w) = Some d /\
             d_timer d = Some (nextTimeout w)) /\
  log (step (InputChange v) w) = log w /\
  now (step (InputChange v) w) = now w /\
  props (step (InputChange v) w) = props w /\
  selected (step (InputChange v) w) = selected w /\
  input (step (InputChange v) w) = v.
Proof.
  intros Hs Hen Hv Hown. rewrite step_quiet by done.
  apply synced_spec in Hs as (He & Hm & d & Hd & Hfn & Hw).
  unfold editTimer. sb_unfold. cbn. rewrite ?Hen, Hv. cbn. rewrite Hd. cbn.
  assert (Hlt : memoValue w < length (closures w))
    by (eapply lookup_lt_Some; eassumption).
  destruct Hown as [Ht|(t & d' & Ht & Hd' & Hid)].
  - destruct (d_timer d); cbn; rewrite Ht, Hfn, Hw; cbn;
      rewrite list_lookup_insert_eq by done; repeat split; eauto.
  - rewrite Hd in Hd'. simplify_eq. rewrite Hid. cbn. rewrite Ht. cbn.
    rewrite Nat.eqb_refl. cbn. rewrite Hfn, Hw. cbn.
    rewrite list_lookup_insert_eq by done. repeat split; eauto.
Qed.

Lemma input_invalid_fields w v :
  synced w = true -> validator (props w) v = false ->
  timers (step (InputChange v) w) = timers w /\
  log (step (InputChange v) w) = log w /\
  now (step (InputChange v) w) = now w /\
  props (step (InputChange v) w) = props w /\
  selected (step (InputChange v) w) = selected w /\
  (disabled (props w) = false -> input (step (InputChange v) w) = v).
Proof.
  intros Hs Hv. rewrite step_quiet by done.
  sb_unfold. cbn. rewrite Hv. cbn. repeat split; done.
Qed.

Lemma select_fields w m :
  timers (step (SelectChange m) w) = timers w /\
  now (step (SelectChange m) w) = now w /\
  props (step (SelectChange m) w) = props w /\
  (disabled (props w) = false -> selected (step (SelectChange m) w) = m) /\
  exists l, log (step (SelectChange m) w) = log w ++ l /\
            onChange_calls l = [].
Proof.
  rewrite step_log, step_props, step_selected. unfold step.
  destruct (rerender_state
              (exec (dispatch (SelectChange m) (view w)) w))
    as (_ & _ & _ & -> & _ & ->).
  sb_unfold. cbn. repeat split; try done.
  eexists. rewrite <- app_assoc. split; [reflexivity|].
    rewrite onChange_calls_app. cbn. apply fire_no_onChange_in_submit.
Qed.

Lemma byDeadline_nil : byDeadline [] = [].
Proof. reflexivity. Qed.

Lemma byDeadline_one t : byDeadline [t] = [t].
Proof. reflexivity. Qed.

Lemma not_due_within w v gap :
  gap < 1000 -> due (now w + gap) (editTimer w v) = false.
Proof. intros Hg. unfold due, editTimer. apply Nat.leb_gt. cbn. lia. Qed.

Lemma due_after w v ms :
  1000 <= ms -> due (now w + ms) (editTimer w v) = true.
Proof. intros Hg. unfold due, editTimer. apply Nat.leb_le. cbn. lia. Qed.

Lemma edit_then_pause w v gap :
  synced w = true -> disabled (props w) = false -> owned w ->
  validator (props w) v = true -> gap < 1000 ->
  let w' := step (Elapse gap) (step (InputChange v) w) in
  synced w' = true /\ owned w' /\ props w' = props w /\
  selected w' = selected w /\ log w' = log w /\
  timers w' = [editTimer w v] /\ now w' = now w + gap.
Proof.
  intros Hs Hen Hown Hv Hg w'. subst w'.
  destruct (input_valid_fields w v Hs Hen Hv Hown)
    as (Ht & (d & Hd & Hid) & Hl & Hn & Hp & Hsel & Hi).
  pose proof (step_synced (InputChange v) w Hs) as Hs1.
  destruct (elapse_fields (step (InputChange v) w) gap Hs1)
    as (Ht2 & Hl2 & Hn2 & Hp2 & Hsel2 & Hi2 & Hc2 & Hm2).
  rewrite Ht, Hn in Ht2, Hl2. cbn in Ht2, Hl2.
  rewrite not_due_within in Ht2, Hl2 by done.
  rewrite byDeadline_nil in Hl2. cbn in Ht2, Hl2.
  rewrite app_nil_r in Hl2.
  split; [apply step_synced; exact Hs1|]. split.
  - right. exists (editTimer w v), d. rewrite Hc2, Hm2.
    split; [exact Ht2|]. split; [exact Hd|exact Hid].
  - rewrite Hp2, Hsel2, Hl2, Hn2, Hp, Hsel, Hl, Hn.
    repeat split; try reflexivity. exact Ht2.
Qed.

Lemma run_cons e es w : run (e :: es) w = run es (step e w).
Proof. reflexivity. Qed.

Lemma run_app es1 es2 w : run (es1 ++ es2) w = run es2 (run es1 w).
Proof. unfold run. apply fold_left_app. Qed.

Lemma edits_cons v gap es :
  edits ((v, gap) :: es) = InputChange v :: Elapse gap :: edits es.
Proof. reflexivity. Qed.

Lemma burst_silent es : forall w,
  synced w = true -> disabled (props w) = false -> owned w ->
  Forall (fun e => validator (props w) e.1 = true /\ e.2 < 1000) es ->
  let w' := run (edits es) w in
  synced w' = true /\ owned w' /\ props w' = props w /\
  selected w' = selected w /\ log w' = log w.
Proof.
  induction es as [|[v gap] es IH]; intros w Hs Hen Hown Hall;
    [cbv zeta; unfold run; cbn [edits flat_map fold_left]; auto|].
  apply Forall_cons in Hall as [[Hv Hg] Hall]. cbn in Hv, Hg.
  destruct (edit_then_pause w v gap Hs Hen Hown Hv Hg)
    as (Hs' & Hown' & Hp' & Hsel' & Hl' & _).
  cbv zeta in *. rewrite edits_cons, !run_cons.
  destruct (IH (step (Elapse gap) (step (InputChange v) w)))
    as (Hs2 & Hown2 & Hp2 & Hsel2 & Hl2);
    rewrite ?Hp'; try assumption.
  rewrite Hp2, Hsel2, Hl2, Hp', Hsel', Hl'.
  repeat split; try reflexivity; assumption.
Qed.

Lemma added_app w w' l : log w' = log w ++ l -> added w w' = l.
Proof. intros H. unfold added. rewrite H. apply drop_app_length. Qed.

Lemma emitted_added e w : emitted e w = added w (step e w).
Proof. reflexivity. Qed.

Lemma fire_editTimer w v :
  fire (editTimer w v) = CallOnChange (onChange (props w)) (selected w) v.
Proof. reflexivity. Qed.

(** C3: a burst of valid edits, each less than 1000ms after the one
    before, with no call pending at its start, forwards nothing while it
    lasts; once 1000ms have passed after the last edit [onChange] has been
    called exactly once, with the last value, and not before. *)
Theorem debounce_coalesces_burst w es v ms :
  synced w = true -> disabled (props w) = false -> timers w = [] ->
  Forall (fun e => validator (props w) e.1 = true /\ e.2 < 1000) es ->
  validator (props w) v = true ->
  onChange_calls
    (added w (run (edits es ++ [InputChange v; Elapse ms]) w)) =
  if (1000 <=? ms)%nat
  then [CallOnChange (onChange (props w)) (selected w) v]
  else [].
Proof.
  intros Hs Hen Ht Hall Hv.
  destruct (burst_silent es w Hs Hen (or_introl Ht) Hall)
    as (Hs1 & Hown1 & Hp1 & Hsel1 & Hl1).
  rewrite run_app, !run_cons. set (w1 := run (edits es) w) in *.
  rewrite <- Hp1 in Hen, Hv.
  destruct (input_valid_fields w1 v Hs1 Hen Hv Hown1)
    as (Ht2 & _ & Hl2 & Hn2 & _).
  pose proof (step_synced (InputChange v) w1 Hs1) as Hs2.
  destruct (elapse_fields (step (InputChange v) w1) ms Hs2)
    as (_ & Hl3 & _).
  rewrite Ht2, Hl2, Hn2, Hl1 in Hl3. cbn [List.filter] in Hl3.
  unfold run at 1. cbn [fold_left].
  rewrite (added_app _ _ _ Hl3).
  destruct (Nat.leb_spec 1000 ms) as [Hms|Hms].
  - rewrite due_after by done. rewrite byDeadline_one. cbn [map].
    rewrite fire_editTimer.
    rewrite Hp1, Hsel1. reflexivity.
  - rewrite not_due_within by done. rewrite byDeadline_nil. reflexivity.
Qed.

Lemma debounce_coalesces_burst_witness :
  let w := mount sampleProps in
  let es := [("e", 100); ("er", 250)] in
  synced w = true /\ disabled (props w) = false /\ timers w = [] /\
  Forall (fun e => validator (props w) e.1 = true /\ e.2 < 1000) es /\
  validator (props w) "err" = true /\
  onChange_calls
    (added w (run (edits es ++ [InputChange "err"; Elapse 1000]) w)) =
  [CallOnChange 2 Search "err"].
Proof.
  cbv zeta.
  assert (Hall : Forall (fun e => validator (props (mount sampleProps)) e.1
                                  = true /\ e.2 < 1000)
                   [("e", 100); ("er", 250)]).
  { repeat (constructor; [split; [reflexivity|cbn; lia]|]). constructor. }
  do 5 (split; [first [exact Hall|reflexivity]|]).
  exact (debounce_coalesces_burst (mount sampleProps)
           [("e", 100); ("er", 250)] "err" 1000
           eq_refl eq_refl eq_refl Hall eq_refl).
Defined.

(** C10: a valid edit followed, within the debounce window, by an edit
    the validator rejects: the pending call is not cancelled, [onChange]
    is called with the earlier valid value once its 1000ms have passed,
    while the input shows the later, invalid value. *)
Theorem invalid_edit_keeps_pending_change w v bad gap ms :
  synced w = true -> disabled (props w) = false -> timers w = [] ->
  validator (props w) v = true -> validator (props w) bad = false ->
  gap < 1000 -> 1000 <= gap + ms ->
  let w' := run [InputChange v; Elapse gap; InputChange bad; Elapse ms] w in
  onChange_calls (added w w')
    = [CallOnChange (onChange (props w)) (selected w) v] /\
  input w' = bad /\ validator (props w') (input w') = false.
Proof.
  intros Hs Hen Ht Hv Hbad Hg Hms w'. subst w'. rewrite !run_cons.
  destruct (edit_then_pause w v gap Hs Hen (or_introl Ht) Hv Hg)
    as (Hs2 & _ & Hp2 & Hsel2 & Hl2 & Ht2 & Hn2).
  set (w2 := step (Elapse gap) (step (InputChange v) w)) in *.
  rewrite <- Hp2 in Hbad, Hen.
  destruct (input_invalid_fields w2 bad Hs2 Hbad)
    as (Ht3 & Hl3 & Hn3 & Hp3 & Hsel3 & Hi3).
  pose proof (step_synced (InputChange bad) w2 Hs2) as Hs3.
  destruct (elapse_fields (step (InputChange bad) w2) ms Hs3)
    as (_ & Hl4 & _ & Hp4 & _ & Hi4 & _).
  unfold run. cbn [fold_left].
  rewrite Ht3, Hl3, Hn3, Ht2, Hl2, Hn2 in Hl4. cbn [List.filter] in Hl4.
  replace (now w + gap + ms) with (now w + (gap + ms)) in Hl4 by lia.
  rewrite due_after in Hl4 by done. rewrite byDeadline_one in Hl4.
  cbn [map] in Hl4.
  rewrite (added_app _ _ _ Hl4), Hi4, Hp4, Hp3, (Hi3 Hen).
  rewrite fire_editTimer. repeat split; done.
Qed.

Lemma invalid_edit_keeps_pending_change_witness :
  let w := mount sampleProps in
  synced w = true /\ disabled (props w) = false /\ timers w = [] /\
  validator (props w) "err" = true /\ validator (props w) "err(" = false /\
  300 < 1000 /\ 1000 <= 300 + 700 /\
  let w' := run [InputChange "err"; Elapse 300; InputChange "err(";
                 Elapse 700] w in
  onChange_calls (added w w') = [CallOnChange 2 Search "err"] /\
  input w' = "err(" /\ validator (props w') (input w') = false.
Proof.
  cbv zeta.
  assert (Hg : 300 < 1000) by lia.
  assert (Hms : 1000 <= 300 + 700) by lia.
  do 7 (split; [first [exact Hg|exact Hms|reflexivity]|]).
  exact (invalid_edit_keeps_pending_change (mount sampleProps)
           "err" "err(" 300 700 eq_refl eq_refl eq_refl eq_refl eq_refl
           Hg Hms).
Defined.

(** C2, as the claim has it, fails: "err" is typed in Search mode, Filter
    is picked 400ms later, and the call forwarded when the timer fires
    carries Search while the mode is Filter. *)
Lemma pending_change_current_mode_counterexample :
  let w := run [InputChange "err"; Elapse 400; SelectChange Filter]
             (mount sampleProps) in
  ~ (forall cb m v,
       In (CallOnChange cb m v) (emitted (Elapse 600) w) -> m = selected w).
Proof.
  cbv zeta. intros H.
  specialize (H 2 Search "err").
  assert (Hin : In (CallOnChange 2 Search "err")
                  (emitted (Elapse 600)
                     (run [InputChange "err"; Elapse 400; SelectChange Filter]
                        (mount sampleProps)))).
  { vm_compute. left. reflexivity. }
  specialize (H Hin). vm_compute in H. discriminate H.
Qed.

(** *** Further properties of the bar *)

(** X1: rendering again without a change of state does nothing: the
    effect does not run a second time and no new debounce closure is
    built. *)
Theorem rerender_idempotent w :
  exec rerender (exec rerender w) = exec rerender w.
Proof.
  destruct (rerender_hooks w) as [He Hm].
  destruct (rerender_state w) as (Hp & _ & Hsel & _).
  apply rerender_id; rewrite ?Hsel, ?Hp; assumption.
Qed.

(** X2: mounting calls nothing. The effect runs on mount, with
    [isSearch] true, but the input is empty: the bar starts in Search mode
    with an empty input, one debounce closure, no timer and an empty
    log, whatever the props. *)
Theorem mount_is_silent p :
  selected (mount p) = Search /\ input (mount p) = "" /\
  log (mount p) = [] /\ timers (mount p) = [] /\
  length (closures (mount p)) = 1 /\ synced (mount p) = true.
Proof.
  repeat split; try reflexivity. apply mount_synced.
Qed.

(** X3: while [disabled] is true, Ctrl+F, Ctrl+S and a click on the
    submit button do nothing: the world is left as it is. *)
Theorem disabled_bar_ignores_shortcuts_and_click w e :
  synced w = true -> disabled (props w) = true ->
  gatedByDisabled e = true ->
  step e w = w.
Proof.
  intros Hs Hd Hu. apply synced_spec in Hs as (He & Hm & _).
  assert (Hw : exec (dispatch e (view w)) w = w).
  { destruct e as [v|key| |v|[]|ms|p']; try discriminate Hu;
      sb_unfold; cbn; rewrite ?Hd; cbn; try reflexivity.
    destruct (validator (props w) (input w)); reflexivity. }
  unfold step. rewrite Hw. apply rerender_id; assumption.
Qed.

Lemma disabled_bar_ignores_shortcuts_and_click_witness :
  let w := with_input "err" (mount disabledProps) in
  synced w = true /\ disabled (props w) = true /\
  gatedByDisabled (KeyDown CtrlS) = true /\
  gatedByDisabled SubmitClick = true /\
  step (KeyDown CtrlS) w = w /\ step SubmitClick w = w.
Proof.
  cbv zeta. do 4 (split; [reflexivity|]). split.
  - exact (disabled_bar_ignores_shortcuts_and_click
             (with_input "err" (mount disabledProps)) (KeyDown CtrlS)
             eq_refl eq_refl eq_refl).
  - exact (disabled_bar_ignores_shortcuts_and_click
             (with_input "err" (mount disabledProps)) SubmitClick
             eq_refl eq_refl eq_refl).
Defined.

(** X4: while the input does not validate, Enter (like any other key)
    and a click on the glyph slot are no-ops: the world is left as it
    is. *)
Theorem invalid_input_blocks_enter_and_click w e :
  synced w = true -> validator (props w) (input w) = false ->
  (exists key, e = InputKeyPress key) \/ e = SubmitClick ->
  step e w = w.
Proof.
  intros Hs Hv He.
  rewrite step_quiet by (destruct He as [[k ->]| ->]; done).
  destruct He as [[k ->]| ->]; sb_unfold; cbn;
    rewrite ?Hv, ?andb_false_r; cbn;
    reflexivity.
Qed.

Lemma invalid_input_blocks_enter_and_click_witness :
  let w := run [InputChange "err("] (mount sampleProps) in
  synced w = true /\ validator (props w) (input w) = false /\
  ((exists key, InputKeyPress "Enter" = InputKeyPress key)
   \/ InputKeyPress "Enter" = SubmitClick) /\
  step (InputKeyPress "Enter") w = w.
Proof.
  cbv zeta.
  assert (He : (exists key, InputKeyPress "Enter" = InputKeyPress key)
               \/ InputKeyPress "Enter" = SubmitClick)
    by (left; exists "Enter"; reflexivity).
  split; [reflexivity|]. split; [reflexivity|]. split; [exact He|].
  exact (invalid_input_blocks_enter_and_click
           (run [InputChange "err("] (mount sampleProps))
           (InputKeyPress "Enter") eq_refl eq_refl He).
Defined.

(** X5: Ctrl+F, while the bar is enabled and wherever the focus is,
    focuses the input and selects its text, and does nothing else: mode,
    input, timers and closures stay, nothing is submitted. *)
Theorem ctrl_f_focuses_and_selects w :
  synced w = true -> disabled (props w) = false ->
  step (KeyDown CtrlF) w =
  with_log (log w ++ [DomFocus; DomSelect]) (with_focused true w).
Proof.
  intros Hs Hen. rewrite step_quiet by done.
  sb_unfold. cbn. rewrite ?Hen. cbn.
  unfold with_log, with_focused. cbn. rewrite <- app_assoc. reflexivity.
Qed.

Lemma ctrl_f_focuses_and_selects_witness :
  let w := run [InputChange "err"] (mount sampleProps) in
  synced w = true /\ disabled (props w) = false /\
  step (KeyDown CtrlF) w =
  with_log (log w ++ [DomFocus; DomSelect]) (with_focused true w).
Proof.
  cbv zeta. do 2 (split; [reflexivity|]).
  exact (ctrl_f_focuses_and_selects
           (run [InputChange "err"] (mount sampleProps)) eq_refl eq_refl).
Defined.

(** X6: with an empty input that validates, Enter submits the empty
    pattern while a click on the submit button, which is disabled for an
    empty input, does nothing. *)
Theorem enter_submits_empty_pattern_click_does_not w :
  synced w = true -> disabled (props w) = false ->
  input w = "" -> validator (props w) "" = true ->
  onSubmit_calls (emitted (InputKeyPress "Enter") w)
    = [CallOnSubmit (onSubmit (props w)) (selected w) ""] /\
  step SubmitClick w = w.
Proof.
  intros Hs Hen Hi Hv. split.
  - unfold emitted. rewrite step_quiet by done.
    sb_unfold. cbn. rewrite ?Hen, Hi, Hv. cbn.
    rewrite handleOnSubmit_run. cbn. sb_log. reflexivity.
  - rewrite step_quiet by done.
    sb_unfold. cbn. rewrite Hi, Hv. cbn. rewrite orb_true_r. reflexivity.
Qed.

Lemma enter_submits_empty_pattern_click_does_not_witness :
  let w := mount sampleProps in
  synced w = true /\ disabled (props w) = false /\
  input w = "" /\ validator (props w) "" = true /\
  onSubmit_calls (emitted (InputKeyPress "Enter") w)
    = [CallOnSubmit (onSubmit (props w)) (selected w) ""] /\
  step SubmitClick w = w.
Proof.
  cbv zeta. do 4 (split; [reflexivity|]).
  exact (enter_submits_empty_pattern_click_does_not (mount sampleProps)
           eq_refl eq_refl eq_refl eq_refl).
Defined.


Lemma dispatch_log e r w :
  exists l, log (exec (dispatch e r) w) = log w ++ l /\
    ((forall ms, e <> Elapse ms) -> onChange_calls l = []).
Proof.
  destruct e as [v|key| |v|[]|ms|p']; sb_crush;
    first [ exists []; split; [symmetry; apply app_nil_r|done]
          | eexists; split; [rewrite <- ?app_assoc; reflexivity|];
            first [ reflexivity | intros Hne; exfalso; eapply Hne; reflexivity ] ].
Qed.

Lemma emitted_split e w :
  exists l, log (exec (dispatch e (view w)) w) = log w ++ l /\
    emitted e w = l ++ autoSubmitEffects (exec (dispatch e (view w)) w) /\
    ((forall ms, e <> Elapse ms) -> onChange_calls l = []).
Proof.
  destruct (dispatch_log e (view w) w) as (l & Hl & Hno).
  exists l. split; [exact Hl|]. split; [|exact Hno].
  unfold emitted. rewrite step_log, Hl, <- app_assoc.
  apply drop_app_length.
Qed.

Lemma emitted_no_onChange e w :
  (forall ms, e <> Elapse ms) -> onChange_calls (emitted e w) = [].
Proof.
  intros Hne. destruct (emitted_split e w) as (l & _ & -> & Hno).
  rewrite onChange_calls_app, (Hno Hne), fire_no_onChange_in_submit.
  reflexivity.
Qed.

(** X7: no handler calls [onChange] itself: an event other than the
    passing of time never calls it, in any world. *)
Theorem only_elapsed_time_calls_onChange w e :
  (forall ms, e <> Elapse ms) -> onChange_calls (emitted e w) = [].
Proof. exact (emitted_no_onChange e w). Qed.

Lemma only_elapsed_time_calls_onChange_witness :
  (forall ms, InputChange "err" <> Elapse ms) /\
  onChange_calls (emitted (InputChange "err") (mount sampleProps)) = [].
Proof.
  assert (Hne : forall ms, InputChange "err" <> Elapse ms)
    by (intros ms H; discriminate H).
  split; [exact Hne|].
  exact (only_elapsed_time_calls_onChange (mount sampleProps)
           (InputChange "err") Hne).
Defined.

(** X8: the mode is changed by the select and by Ctrl+S only: typing,
    submitting, Ctrl+F, time and new props leave it as it is, in any
    world. *)
Theorem mode_changes_only_by_select_or_ctrl_s w e :
  (forall m, e <> SelectChange m) -> e <> KeyDown CtrlS ->
  selected (step e w) = selected w.
Proof.
  intros Hsel Hkey. rewrite step_selected.
  destruct e as [v|key| |v|[]|ms|p']; sb_crush; try reflexivity;
    exfalso; first [eapply Hsel; reflexivity | apply Hkey; reflexivity].
Qed.

Lemma mode_changes_only_by_select_or_ctrl_s_witness :
  let w := run [SelectChange Filter; InputChange "err"]
             (mount sampleProps) in
  (forall m, InputKeyPress "Enter" <> SelectChange m) /\
  InputKeyPress "Enter" <> KeyDown CtrlS /\
  selected (step (InputKeyPress "Enter") w) = selected w.
Proof.
  cbv zeta.
  assert (Hsel : forall m, InputKeyPress "Enter" <> SelectChange m)
    by (intros m H; discriminate H).
  assert (Hkey : InputKeyPress "Enter" <> KeyDown CtrlS)
    by (intros H; discriminate H).
  split; [exact Hsel|]. split; [exact Hkey|].
  exact (mode_changes_only_by_select_or_ctrl_s _ _ Hsel Hkey).
Defined.

Lemma dispatch_input e r w :
  (forall v, e <> InputChange v) ->
  input (exec (dispatch e r) w) = input w \/
  exists l, log (exec (dispatch e r) w) = log w ++ l /\
            onSubmit_calls l <> [].
Proof.
  intros Hne.
  destruct e as [v|key| |v|[]|ms|p']; sb_crush; try (left; reflexivity);
    try (exfalso; eapply Hne; reflexivity);
    right; eexists; (split; [reflexivity|]); discriminate.
Qed.

(** X9: the input is changed by typing and by a submit only: an event
    that is no edit and calls no [onSubmit] leaves the input as it is, in
    any world. *)
Theorem input_changes_only_by_typing_or_submit w e :
  (forall v, e <> InputChange v) ->
  onSubmit_calls (emitted e w) = [] ->
  input (step e w) = input w.
Proof.
  intros Hne Hno. rewrite step_input.
  destruct (dispatch_input e (view w) w Hne) as [Hi|(l & Hl & Hsub)];
    [exact Hi|].
  exfalso. destruct (emitted_split e w) as (l' & Hl' & He & _).
  rewrite Hl in Hl'. apply app_inv_head in Hl'. subst l'.
  rewrite He, onSubmit_calls_app in Hno.
  apply app_eq_nil in Hno as [Hno _]. exact (Hsub Hno).
Qed.

Lemma input_changes_only_by_typing_or_submit_witness :
  let w := run [SelectChange Filter; InputChange "err"]
             (mount sampleProps) in
  (forall v, SelectChange Highlight <> InputChange v) /\
  onSubmit_calls (emitted (SelectChange Highlight) w) = [] /\
  input (step (SelectChange Highlight) w) = input w.
Proof.
  cbv zeta.
  assert (Hne : forall v, SelectChange Highlight <> InputChange v)
    by (intros v H; discriminate H).
  split; [exact Hne|]. split; [reflexivity|].
  exact (input_changes_only_by_typing_or_submit
           (run [SelectChange Filter; InputChange "err"] (mount sampleProps))
           (SelectChange Highlight) Hne eq_refl).
Defined.


(** X10: an event submits at most once, and a submit is always the same
    three calls in the same order: the input is blurred, the breadcrumb
    "search-bar-submit" records the mode and the pattern, and [onSubmit]
    receives that mode and pattern. *)
Theorem submit_is_blur_breadcrumb_callback w e :
  synced w = true ->
  onSubmit_calls (emitted e w) = [] \/
  exists l m p,
    emitted e w =
      l ++ [DomBlur;
            LeaveBreadcrumb "search-bar-submit" (SubmitPayload m p) "user";
            CallOnSubmit (onSubmit (props w)) m p] /\
    onSubmit_calls l = [].
Proof.
  intros Hs. apply synced_spec in Hs as (He & Hm & d & Hd & Hfn & Hw).
  unfold emitted. rewrite step_log. unfold autoSubmitEffects, submitEffects.
  destruct e as [v|key| |v|[]|ms|p']; sb_crush; sb_log; sb_prune.
  all: first
    [ left; reflexivity
    | left; apply fire_no_onSubmit
    | right; exists []; eexists _, _; split; reflexivity
    | right; eexists [_], _, _; split; reflexivity ].
Qed.

Lemma submit_is_blur_breadcrumb_callback_witness :
  let w := run [SelectChange Filter; InputChange "err"]
             (mount sampleProps) in
  synced w = true /\
  (onSubmit_calls (emitted (SelectChange Search) w) = [] \/
   exists l m p,
     emitted (SelectChange Search) w =
       l ++ [DomBlur;
             LeaveBreadcrumb "search-bar-submit" (SubmitPayload m p) "user";
             CallOnSubmit (onSubmit (props w)) m p] /\
     onSubmit_calls l = []).
Proof.
  cbv zeta. split; [reflexivity|].
  exact (submit_is_blur_breadcrumb_callback
           (run [SelectChange Filter; InputChange "err"] (mount sampleProps))
           (SelectChange Search) eq_refl).
Defined.

Lemma rerender_focused w :
  focused (exec rerender w) =
  match autoSubmitEffects w with [] => focused w | _ => false end.
Proof. unfold autoSubmitEffects, submitEffects. sb_crush. Qed.

(** X11: whichever event submits, the auto-submit of a mode change
    included, the input has lost the focus afterwards. *)
Theorem submit_blurs_input w e cb m p :
  synced w = true ->
  In (CallOnSubmit cb m p) (emitted e w) ->
  focused (step e w) = false.
Proof.
  intros Hs Hin. apply synced_spec in Hs as (He & Hm & d & Hd & Hfn & Hw).
  unfold emitted in Hin. rewrite step_log in Hin.
  unfold step. rewrite rerender_focused.
  unfold autoSubmitEffects, submitEffects in *.
  destruct e as [v|key| |v|[]|ms|p']; sb_crush; sb_log; sb_prune.
  all: try (exfalso; eapply fire_not_onSubmit; eassumption).
  all: try (intuition (simplify_eq; congruence)).
Qed.

Lemma submit_blurs_input_witness :
  let w := with_focused true
             (run [SelectChange Filter; InputChange "err"]
                (mount sampleProps)) in
  synced w = true /\
  In (CallOnSubmit 1 Filter "err") (emitted (InputKeyPress "Enter") w) /\
  focused w = true /\
  focused (step (InputKeyPress "Enter") w) = false.
Proof.
  cbv zeta.
  assert (Hin : In (CallOnSubmit 1 Filter "err")
                  (emitted (InputKeyPress "Enter")
                     (with_focused true
                        (run [SelectChange Filter; InputChange "err"]
                           (mount sampleProps))))).
  { vm_compute. right. right. left. reflexivity. }
  split; [reflexivity|]. split; [exact Hin|]. split; [reflexivity|].
  exact (submit_blurs_input
           (with_focused true
              (run [SelectChange Filter; InputChange "err"]
                 (mount sampleProps)))
           (InputKeyPress "Enter") 1 Filter "err" eq_refl Hin).
Defined.

(** X12: picking a mode in the select leaves the breadcrumb
    "search-bar-select" with the picked value, first of all; cycling with
    Ctrl+S leaves no such breadcrumb. *)
Theorem select_leaves_breadcrumb_ctrl_s_does_not w :
  synced w = true -> disabled (props w) = false ->
  (forall m, exists l,
     emitted (SelectChange m) w =
       LeaveBreadcrumb "search-bar-select" (SelectPayload m) "user" :: l) /\
  (forall p c,
     ~ In (LeaveBreadcrumb "search-bar-select" p c)
          (emitted (KeyDown CtrlS) w)).
Proof.
  intros Hs Hen. apply synced_spec in Hs as (He & Hm & d & Hd & Hfn & Hw).
  split.
  - intros m. unfold emitted. rewrite step_log.
    sb_unfold. cbn. rewrite ?Hen. cbn. rewrite <- app_assoc.
    rewrite drop_app_length. eexists. reflexivity.
  - intros p c. unfold emitted. rewrite step_log.
    unfold autoSubmitEffects, submitEffects.
    sb_unfold. cbn. rewrite ?Hen. cbn. rewrite cycleHandler_run. cbn.
    rewrite drop_app_length.
    repeat case_match; cbn; intros Hin; intuition discriminate.
Qed.

Lemma select_leaves_breadcrumb_ctrl_s_does_not_witness :
  let w := run [SelectChange Highlight; InputChange "err"]
             (mount sampleProps) in
  synced w = true /\ disabled (props w) = false /\
  (forall m, exists l,
     emitted (SelectChange m) w =
       LeaveBreadcrumb "search-bar-select" (SelectPayload m) "user" :: l) /\
  (forall p c,
     ~ In (LeaveBreadcrumb "search-bar-select" p c)
          (emitted (KeyDown CtrlS) w)).
Proof.
  cbv zeta. do 2 (split; [reflexivity|]).
  exact (select_leaves_breadcrumb_ctrl_s_does_not
           (run [SelectChange Highlight; InputChange "err"]
              (mount sampleProps)) eq_refl eq_refl).
Defined.


(** *** Runs and their logs *)

Lemma log_step e w : log (step e w) = log w ++ emitted e w.
Proof.
  destruct (emitted_split e w) as (l & Hl & -> & _).
  rewrite step_log, Hl, <- app_assoc. reflexivity.
Qed.

Lemma log_run es : forall w, log (run es w) = log w ++ added w (run es w).
Proof.
  induction es as [|e es IH]; intros w.
  - unfold run, added. cbn [fold_left]. rewrite drop_all, app_nil_r.
    reflexivity.
  - rewrite run_cons. unfold added at 1. rewrite (IH (step e w)), log_step.
    rewrite <- app_assoc, drop_app_length. reflexivity.
Qed.

Lemma added_cons e es w :
  added w (run (e :: es) w)
  = emitted e w ++ added (step e w) (run es (step e w)).
Proof.
  rewrite run_cons. unfold added at 1.
  rewrite (log_run es (step e w)), log_step, <- app_assoc.
  apply drop_app_length.
Qed.

Lemma In_insertByDeadline x t l :
  In x (insertByDeadline t l) -> x = t \/ In x l.
Proof.
  induction l as [|u l IH]; cbn [insertByDeadline].
  - intros [->|[]]. left. reflexivity.
  - destruct (t_deadline t <? t_deadline u)%nat;
      intros [Hx|Hx]; subst; cbn; auto;
      apply IH in Hx as [Hx|Hx]; auto.
Qed.

Lemma In_byDeadline x l : In x (byDeadline l) -> In x l.
Proof.
  unfold byDeadline.
  assert (H : forall acc, In x (fold_left
                (fun sorted t => insertByDeadline t sorted) l acc) ->
              In x acc \/ In x l).
  { induction l as [|t l IH]; intros acc Hin; cbn in *; [auto|].
    apply IH in Hin as [Hin|Hin]; [|auto].
    apply In_insertByDeadline in Hin as [->|Hin]; auto. }
  intros Hin. apply H in Hin as [[]|Hin]. exact Hin.
Qed.

Lemma In_onChange_calls x l :
  In x l -> is_onChange x = true -> In x (onChange_calls l).
Proof. intros Hin Hx. apply filter_In. auto. Qed.

Lemma onChange_from_timer e w cb m v :
  In (CallOnChange cb m v) (emitted e w) ->
  exists t, In t (timers w) /\ t_arg t = v.
Proof.
  intros Hin.
  destruct (emitted_split e w) as (l & Hl & He & Hno).
  rewrite He in Hin. apply in_app_or in Hin as [Hin|Hin].
  - destruct e as [v'|key| |v'|k|ms|p'];
      try (apply In_onChange_calls in Hin; [|reflexivity];
           rewrite Hno in Hin by (intros ms' H'; discriminate H');
           destruct Hin).
    assert (Hl' : log (exec (dispatch (Elapse ms) (view w)) w) =
                  log w ++ map fire (byDeadline
                    (List.filter (due (now w + ms)) (timers w))))
      by reflexivity.
    rewrite Hl in Hl'. apply app_inv_head in Hl'. subst l.
    apply in_map_iff in Hin as (t & Hfire & Hin).
    apply In_byDeadline, filter_In in Hin as [Hin _].
    exists t. split; [exact Hin|]. unfold fire in Hfire. congruence.
  - apply In_onChange_calls in Hin; [|reflexivity].
    rewrite fire_no_onChange_in_submit in Hin. destruct Hin.
Qed.

Lemma Forall_List_filter {A} (P : A -> Prop) f l :
  Forall P l -> Forall P (List.filter f l).
Proof.
  induction 1 as [|x l Hx Hl IH]; cbn; [constructor|].
  destruct (f x); [constructor|]; assumption.
Qed.

Lemma step_keeps_valid_timers e w :
  keepsProps e = true ->
  Forall (fun t => validator (props w) (t_arg t) = true) (timers w) ->
  props (step e w) = props w /\
  Forall (fun t => validator (props w) (t_arg t) = true)
    (timers (step e w)).
Proof.
  intros Hk Hall. rewrite step_props. unfold step.
  destruct (rerender_state (exec (dispatch e (view w)) w))
    as (_ & _ & _ & _ & _ & ->).
  destruct e as [v|key| |v|[]|ms|p']; try discriminate Hk;
    sb_crush; split; try reflexivity; try assumption;
    rewrite ?Forall_app; repeat split;
    try apply Forall_List_filter; try assumption;
    repeat constructor; assumption.
Qed.


(** X13: a value the validator rejects is never forwarded: as long as
    the parent passes no new props, every [onChange] call of a run carries
    a value that validates, provided the values pending at its start do. *)
Theorem forwarded_values_validate es w cb m v :
  forallb keepsProps es = true ->
  Forall (fun t => validator (props w) (t_arg t) = true) (timers w) ->
  In (CallOnChange cb m v) (added w (run es w)) ->
  validator (props w) v = true.
Proof.
  revert w. induction es as [|e es IH]; intros w Hk Hall Hin.
  - unfold run, added in Hin. cbn [fold_left] in Hin.
    rewrite drop_all in Hin. destruct Hin.
  - cbn [forallb] in Hk. apply andb_true_iff in Hk as [Hke Hk].
    rewrite added_cons in Hin. apply in_app_or in Hin as [Hin|Hin].
    + apply onChange_from_timer in Hin as (t & Ht & <-).
      rewrite Forall_forall in Hall. apply Hall.
      apply list_elem_of_In. exact Ht.
    + destruct (step_keeps_valid_timers e w Hke Hall) as [Hp Hall'].
      rewrite <- Hp. apply IH; [exact Hk| |exact Hin].
      rewrite Hp. exact Hall'.
Qed.

Lemma forwarded_values_validate_witness :
  let es := [InputChange "err"; Elapse 300; InputChange "err(";
             Elapse 700] in
  let w := mount sampleProps in
  forallb keepsProps es = true /\
  Forall (fun t => validator (props w) (t_arg t) = true) (timers w) /\
  In (CallOnChange 2 Search "err") (added w (run es w)) /\
  validator (props w) "err" = true.
Proof.
  cbv zeta.
  assert (Hall : Forall (fun t => validator (props (mount sampleProps))
                                    (t_arg t) = true)
                   (timers (mount sampleProps))) by constructor.
  assert (Hin : In (CallOnChange 2 Search "err")
                  (added (mount sampleProps)
                     (run [InputChange "err"; Elapse 300;
                           InputChange "err("; Elapse 700]
                        (mount sampleProps)))).
  { vm_compute. left. reflexivity. }
  split; [reflexivity|]. split; [exact Hall|]. split; [exact Hin|].
  exact (forwarded_values_validate
           [InputChange "err"; Elapse 300; InputChange "err("; Elapse 700]
           (mount sampleProps) 2 Search "err" eq_refl Hall Hin).
Defined.


Lemma quiet_timers e w :
  (forall v, e <> InputChange v) -> (forall ms, e <> Elapse ms) ->
  timers (step e w) = timers w /\ now (step e w) = now w.
Proof.
  intros Hv Hms. unfold step.
  destruct (rerender_state (exec (dispatch e (view w)) w))
    as (_ & _ & _ & -> & _ & ->).
  destruct e as [v|key| |v|[]|ms|p'];
    try (exfalso; eapply Hv; reflexivity);
    try (exfalso; eapply Hms; reflexivity);
    sb_crush; split; reflexivity.
Qed.

Lemma due_editTimer w v t0 :
  due t0 (editTimer w v) = (now w + 1000 <=? t0)%nat.
Proof. reflexivity. Qed.

Lemma edit_then_pause_input w v gap :
  synced w = true -> disabled (props w) = false -> owned w ->
  validator (props w) v = true ->
  input (step (Elapse gap) (step (InputChange v) w)) = v.
Proof.
  intros Hs Hen Hown Hv.
  destruct (input_valid_fields w v Hs Hen Hv Hown)
    as (_ & _ & _ & _ & _ & _ & Hi).
  pose proof (step_synced (InputChange v) w Hs) as Hs1.
  destruct (elapse_fields (step (InputChange v) w) gap Hs1)
    as (_ & _ & _ & _ & _ & Hi2 & _).
  rewrite Hi2. exact Hi.
Qed.

(** What a pending edit of [w] turns into once its 1000ms have passed in
    a later world that still holds its timer and nothing else. *)
Lemma pending_edit_fires w v w' ms :
  synced w' = true -> timers w' = [editTimer w v] ->
  now w + 1000 <= now w' + ms ->
  emitted (Elapse ms) w'
  = [CallOnChange (onChange (props w)) (selected w) v].
Proof.
  intros Hs Ht Hdue.
  destruct (elapse_fields w' ms Hs) as (_ & Hl & _).
  rewrite emitted_added, (added_app _ _ _ Hl), Ht.
  cbn [List.filter]. rewrite due_editTimer.
  replace (now w + 1000 <=? now w' + ms)%nat with true
    by (symmetry; apply Nat.leb_le; exact Hdue).
  rewrite byDeadline_one. reflexivity.
Qed.

(** X14: new props do not reach a pending call: once its 1000ms have
    passed it is forwarded to the [onChange] passed when the edit was made,
    whatever props the parent has passed since. *)
Theorem pending_change_keeps_captured_callback w v p' gap ms :
  synced w = true -> disabled (props w) = false -> timers w = [] ->
  validator (props w) v = true -> gap < 1000 -> 1000 <= gap + ms ->
  let w' := run [InputChange v; Elapse gap; ParentRender p'] w in
  props w' = p' /\
  onChange_calls (added w w') = [] /\
  emitted (Elapse ms) w'
    = [CallOnChange (onChange (props w)) (selected w) v].
Proof.
  intros Hs Hen Ht Hv Hg Hms w'. subst w'. rewrite !run_cons.
  destruct (edit_then_pause w v gap Hs Hen (or_introl Ht) Hv Hg)
    as (Hs2 & _ & _ & _ & Hl2 & Ht2 & Hn2).
  set (w2 := step (Elapse gap) (step (InputChange v) w)) in *.
  unfold run. cbn [fold_left].
  destruct (quiet_timers (ParentRender p') w2) as [Ht3 Hn3];
    [intros v' H; discriminate H|intros ms' H; discriminate H|].
  split; [rewrite step_props; reflexivity|]. split.
  - assert (Hl3 : log (step (ParentRender p') w2)
                  = log w ++ emitted (ParentRender p') w2)
      by (rewrite log_step, Hl2; reflexivity).
    rewrite (added_app _ _ _ Hl3).
    apply emitted_no_onChange. intros ms' H. discriminate H.
  - apply pending_edit_fires.
    + apply step_synced. exact Hs2.
    + rewrite Ht3. exact Ht2.
    + rewrite Hn3, Hn2. lia.
Qed.

Lemma pending_change_keeps_captured_callback_witness :
  let w := mount sampleProps in
  let p' := {| disabled := false; validator := validator sampleProps;
               validatorMessage := "Invalid Input";
               onSubmit := 3; onChange := 4 |} in
  synced w = true /\ disabled (props w) = false /\ timers w = [] /\
  validator (props w) "err" = true /\ 400 < 1000 /\ 1000 <= 400 + 600 /\
  let w' := run [InputChange "err"; Elapse 400; ParentRender p'] w in
  props w' = p' /\
  onChange_calls (added w w') = [] /\
  emitted (Elapse 600) w' = [CallOnChange 2 Search "err"].
Proof.
  cbv zeta.
  assert (Hg : 400 < 1000) by lia.
  assert (Hms : 1000 <= 400 + 600) by lia.
  do 6 (split; [first [exact Hg|exact Hms|reflexivity]|]).
  exact (pending_change_keeps_captured_callback (mount sampleProps) "err"
           {| disabled := false; validator := validator sampleProps;
              validatorMessage := "Invalid Input";
              onSubmit := 3; onChange := 4 |}
           400 600 eq_refl eq_refl eq_refl eq_refl Hg Hms).
Defined.

Lemma enter_valid w :
  synced w = true -> disabled (props w) = false ->
  validator (props w) (input w) = true ->
  emitted (InputKeyPress "Enter") w = submitEffects (view w) /\
  input (step (InputKeyPress "Enter") w)
  = (if bool_decide (selected w = Filter \/ selected w = Highlight)
     then "" else input w).
Proof.
  intros Hs Hen Hv. unfold emitted. rewrite step_quiet by done.
  sb_unfold. cbn. rewrite ?Hen, Hv. cbn. rewrite handleOnSubmit_run. cbn.
  rewrite drop_app_length. split; [reflexivity|].
  unfold isFilter, isHighlight. cbn.
  destruct (selected w); reflexivity.
Qed.

(** X15: a submit does not cancel a pending call either: a valid value
    is typed and submitted with Enter inside the debounce window;
    [onSubmit] receives it at once and, when the 1000ms have passed,
    [onChange] still receives it, although in Filter and Highlight mode
    the input has been empty since the submit. *)
Theorem submit_keeps_pending_change w v gap ms :
  synced w = true -> disabled (props w) = false -> timers w = [] ->
  validator (props w) v = true -> gap < 1000 -> 1000 <= gap + ms ->
  let w' := run [InputChange v; Elapse gap; InputKeyPress "Enter"] w in
  onSubmit_calls (added w w')
    = [CallOnSubmit (onSubmit (props w)) (selected w) v] /\
  input w' = (if bool_decide (selected w = Filter \/ selected w = Highlight)
              then "" else v) /\
  emitted (Elapse ms) w'
    = [CallOnChange (onChange (props w)) (selected w) v].
Proof.
  intros Hs Hen Ht Hv Hg Hms w'. subst w'. rewrite !run_cons.
  pose proof (edit_then_pause_input w v gap Hs Hen (or_introl Ht) Hv) as Hi2.
  destruct (edit_then_pause w v gap Hs Hen (or_introl Ht) Hv Hg)
    as (Hs2 & _ & Hp2 & Hsel2 & Hl2 & Ht2 & Hn2).
  set (w2 := step (Elapse gap) (step (InputChange v) w)) in *.
  unfold run. cbn [fold_left].
  destruct (quiet_timers (InputKeyPress "Enter") w2) as [Ht3 Hn3];
    [intros v' H; discriminate H|intros ms' H; discriminate H|].
  destruct (enter_valid w2 Hs2) as [He3 Hi3];
    [rewrite Hp2; exact Hen|rewrite Hp2, Hi2; exact Hv|].
  split; [|split].
  - assert (Hl3 : log (step (InputKeyPress "Enter") w2)
                  = log w ++ submitEffects (view w2))
      by (rewrite log_step, Hl2, He3; reflexivity).
    rewrite (added_app _ _ _ Hl3). unfold submitEffects. cbn.
    rewrite Hp2, Hsel2, Hi2. reflexivity.
  - rewrite Hi3, Hsel2, Hi2. reflexivity.
  - apply pending_edit_fires.
    + apply step_synced. exact Hs2.
    + rewrite Ht3. exact Ht2.
    + rewrite Hn3, Hn2. lia.
Qed.

Lemma submit_keeps_pending_change_witness :
  let w := run [SelectChange Filter] (mount sampleProps) in
  synced w = true /\ disabled (props w) = false /\ timers w = [] /\
  validator (props w) "err" = true /\ 200 < 1000 /\ 1000 <= 200 + 800 /\
  let w' := run [InputChange "err"; Elapse 200; InputKeyPress "Enter"] w in
  onSubmit_calls (added w w') = [CallOnSubmit 1 Filter "err"] /\
  input w' = "" /\
  emitted (Elapse 800) w' = [CallOnChange 2 Filter "err"].
Proof.
  cbv zeta.
  assert (Hg : 200 < 1000) by lia.
  assert (Hms : 1000 <= 200 + 800) by lia.
  do 6 (split; [first [exact Hg|exact Hms|reflexivity]|]).
  exact (submit_keeps_pending_change
           (run [SelectChange Filter] (mount sampleProps)) "err" 200 800
           eq_refl eq_refl eq_refl eq_refl Hg Hms).
Defined.


Lemma select_memo w m :
  synced w = true -> disabled (props w) = false ->
  (m = selected w ->
   closures (step (SelectChange m) w) = closures w /\
   memoValue (step (SelectChange m) w) = memoValue w) /\
  (m <> selected w ->
   exists d, closures (step (SelectChange m) w)
               !! memoValue (step (SelectChange m) w) = Some d /\
             d_timer d = None).
Proof.
  intros Hs Hen. apply synced_spec in Hs as (_ & Hm & _).
  unfold step.
  destruct (rerender_memo (exec (dispatch (SelectChange m) (view w)) w))
    as [Hsame Hnew].
  revert Hsame Hnew. sb_unfold. cbn. rewrite ?Hen. cbn. rewrite Hm.
  intros Hsame Hnew. split.
  - intros ->. apply Hsame. reflexivity.
  - intros Hne. destruct Hnew as [-> ->]; [congruence|].
    eexists. split; [apply list_lookup_middle; reflexivity|reflexivity].
Qed.

Lemma input_valid_fresh w v d :
  synced w = true -> disabled (props w) = false ->
  validator (props w) v = true ->
  closures w !! memoValue w = Some d -> d_timer d = None ->
  timers (step (InputChange v) w) = timers w ++ [editTimer w v] /\
  log (step (InputChange v) w) = log w /\
  now (step (InputChange v) w) = now w.
Proof.
  intros Hs Hen Hv Hd Hnone. rewrite step_quiet by done.
  apply synced_spec in Hs as (He & Hm & d' & Hd' & Hfn & Hw).
  rewrite Hd in Hd'. simplify_eq.
  unfold editTimer. sb_unfold. cbn. rewrite ?Hen, Hv. cbn. rewrite Hd. cbn.
  rewrite Hnone. cbn. rewrite Hfn, Hw. repeat split; reflexivity.
Qed.

Lemma two_pending_edits_fire w w3 w4 v1 v2 ms :
  synced w4 = true ->
  timers w4 = [editTimer w v1; editTimer w3 v2] ->
  now w4 = now w3 -> now w <= now w3 -> 1000 <= ms ->
  emitted (Elapse ms) w4
  = [CallOnChange (onChange (props w)) (selected w) v1;
     CallOnChange (onChange (props w3)) (selected w3) v2].
Proof.
  intros Hs Ht Hn Hle Hms.
  destruct (elapse_fields w4 ms Hs) as (_ & Hl & _).
  rewrite emitted_added, (added_app _ _ _ Hl), Ht, Hn.
  cbn [List.filter]. rewrite !due_editTimer.
  replace (now w + 1000 <=? now w3 + ms)%nat with true
    by (symmetry; apply Nat.leb_le; lia).
  replace (now w3 + 1000 <=? now w3 + ms)%nat with true
    by (symmetry; apply Nat.leb_le; lia).
  unfold byDeadline, editTimer. cbn [fold_left insertByDeadline t_deadline].
  replace (now w3 + 1000 <? now w + 1000)%nat with false
    by (symmetry; apply Nat.ltb_ge; lia).
  reflexivity.
Qed.

(** X16: the debounce does not reach across a change of mode. A valid
    value is typed, another mode is picked inside the window and a second
    valid value is typed: both are forwarded, each with the mode it was
    typed in. Picking the mode the bar is in already changes nothing: the
    second value replaces the first. *)
Theorem mode_change_splits_debounce w v1 v2 m' gap ms :
  synced w = true -> disabled (props w) = false -> timers w = [] ->
  validator (props w) v1 = true -> validator (props w) v2 = true ->
  gap < 1000 -> 1000 <= ms ->
  onChange_calls
    (added w (run [InputChange v1; Elapse gap; SelectChange m';
                   InputChange v2; Elapse ms] w)) =
  if bool_decide (m' = selected w)
  then [CallOnChange (onChange (props w)) (selected w) v2]
  else [CallOnChange (onChange (props w)) (selected w) v1;
        CallOnChange (onChange (props w)) m' v2].
Proof.
  intros Hs Hen Ht Hv1 Hv2 Hg Hms. rewrite !run_cons.
  destruct (edit_then_pause w v1 gap Hs Hen (or_introl Ht) Hv1 Hg)
    as (Hs2 & Hown2 & Hp2 & Hsel2 & Hl2 & Ht2 & Hn2).
  rewrite <- Hp2 in Hen, Hv2.
  destruct (select_fields (step (Elapse gap) (step (InputChange v1) w)) m')
    as (Ht3 & Hn3 & Hp3 & Hsel3 & l3 & Hl3 & Hno3).
  specialize (Hsel3 Hen).
  pose proof (step_synced (SelectChange m') _ Hs2) as Hs3.
  destruct (select_memo _ m' Hs2 Hen) as [Hsame Hnew].
  rewrite <- Hp3 in Hen, Hv2.
  pose proof (step_synced (InputChange v2) _ Hs3) as Hs4.
  assert (Hrun : forall x : World, run [] x = x) by reflexivity.
  rewrite Hrun.
  case_bool_decide as Hm'.
  - rewrite <- Hsel2 in Hm'. destruct (Hsame Hm') as [Hc3 Hv3].
    assert (Hown3 : owned (step (SelectChange m')
                             (step (Elapse gap) (step (InputChange v1) w)))).
    { destruct Hown2 as [Hnil|(t & d & Htt & Hd & Hid)].
      - left. rewrite Ht3. exact Hnil.
      - right. exists t, d. rewrite Ht3, Hc3, Hv3. auto. }
    destruct (input_valid_fields _ v2 Hs3 Hen Hv2 Hown3)
      as (Ht4 & _ & Hl4 & Hn4 & _).
    assert (Hfire := pending_edit_fires _ v2 _ ms Hs4 Ht4).
    rewrite Hn4 in Hfire. specialize (Hfire ltac:(lia)).
    assert (Hl5 := log_step (Elapse ms)
                     (step (InputChange v2)
                        (step (SelectChange m')
                           (step (Elapse gap) (step (InputChange v1) w))))).
    rewrite Hfire, Hl4, Hl3, Hl2, <- app_assoc in Hl5.
    rewrite (added_app _ _ _ Hl5), onChange_calls_app, Hno3.
    rewrite Hp3, Hp2, Hsel3, Hm', Hsel2. reflexivity.
  - rewrite <- Hsel2 in Hm'. destruct (Hnew Hm') as (d & Hd & Hnone).
    destruct (input_valid_fresh _ v2 d Hs3 Hen Hv2 Hd Hnone)
      as (Ht4 & Hl4 & Hn4).
    rewrite Ht3, Ht2 in Ht4. cbn [app] in Ht4.
    assert (Hfire := two_pending_edits_fire _ _ _ v1 v2 ms Hs4 Ht4 Hn4).
    rewrite Hn3, Hn2 in Hfire. specialize (Hfire ltac:(lia) Hms).
    assert (Hl5 := log_step (Elapse ms)
                     (step (InputChange v2)
                        (step (SelectChange m')
                           (step (Elapse gap) (step (InputChange v1) w))))).
    rewrite Hfire, Hl4, Hl3, Hl2, <- app_assoc in Hl5.
    rewrite (added_app _ _ _ Hl5), onChange_calls_app, Hno3.
    rewrite Hp3, Hp2, Hsel3. reflexivity.
Qed.

Lemma mode_change_splits_debounce_witness :
  let w := mount sampleProps in
  synced w = true /\ disabled (props w) = false /\ timers w = [] /\
  validator (props w) "err" = true /\ validator (props w) "warn" = true /\
  300 < 1000 /\ 1000 <= 1000 /\
  onChange_calls
    (added w (run [InputChange "err"; Elapse 300; SelectChange Filter;
                   InputChange "warn"; Elapse 1000] w)) =
  [CallOnChange 2 Search "err"; CallOnChange 2 Filter "warn"].
Proof.
  cbv zeta.
  assert (Hg : 300 < 1000) by lia.
  assert (Hms : 1000 <= 1000) by lia.
  do 7 (split; [first [exact Hg|exact Hms|reflexivity]|]).
  exact (mode_change_splits_debounce (mount sampleProps) "err" "warn"
           Filter 300 1000 eq_refl eq_refl eq_refl eq_refl eq_refl Hg Hms).
Defined.


Lemma mode_event_step w e target :
  synced w = true -> disabled (props w) = false ->
  e = SelectChange target \/
  (e = KeyDown CtrlS /\ target = nextAction (selected w)) ->
  synced (step e w) = true /\ props (step e w) = props w /\
  input (step e w) = input w /\ selected (step e w) = target /\
  onSubmit_calls (emitted e w) =
    if bool_decide (selected w <> Search /\ target = Search
                    /\ input w <> "")
    then [CallOnSubmit (onSubmit (props w)) Search (input w)]
    else [].
Proof.
  intros Hs Hen He.
  assert (Hfields : props (step e w) = props w /\
                    input (step e w) = input w /\
                    selected (step e w) = target).
  { rewrite step_props, step_input, step_selected.
    destruct He as [->|[-> ->]]; sb_unfold; cbn; rewrite ?Hen; cbn;
      rewrite ?cycleHandler_run; repeat split; reflexivity. }
  destruct Hfields as (Hp & Hi & Hsel).
  split; [apply step_synced; exact Hs|]. do 3 (split; [assumption|]).
  case_bool_decide as Hc;
    destruct (autosubmit_cases w e Hs) as [Hin Hout].
  - destruct Hc as (Hfrom & Hto & Hne). rewrite <- Hsel in Hto.
    rewrite (Hin Hfrom Hto). rewrite bool_decide_eq_false_2 by done. done.
  - assert (Hkey : forall key, e <> InputKeyPress key)
      by (intros key H; destruct He as [->|[-> _]]; discriminate H).
    assert (Hclick : e <> SubmitClick)
      by (intros H; destruct He as [->|[-> _]]; discriminate H).
    destruct (decide (selected w = Search)) as [Hfrom|Hfrom];
      [apply Hout; auto|].
    destruct (decide (selected (step e w) = Search)) as [Hto|Hto];
      [|apply Hout; auto].
    rewrite (Hin Hfrom Hto). case_bool_decide as Hi'; [done|].
    exfalso. apply Hc. rewrite <- Hsel. auto.
Qed.

Lemma added_nil w : added w w = [].
Proof. unfold added. apply drop_all. Qed.

(** X17: a full round of Ctrl+S, from any mode and with a non-empty
    input, passes through Search exactly once: [onSubmit] is called once,
    in Search mode and with the input, and the round ends in the mode it
    began in with the input untouched. *)
Theorem ctrl_s_round_submits_once w :
  synced w = true -> disabled (props w) = false -> input w <> "" ->
  let w' := run [KeyDown CtrlS; KeyDown CtrlS; KeyDown CtrlS] w in
  onSubmit_calls (added w w')
    = [CallOnSubmit (onSubmit (props w)) Search (input w)] /\
  input w' = input w /\ selected w' = selected w.
Proof.
  intros Hs Hen Hne w'. subst w'.
  destruct (mode_event_step w (KeyDown CtrlS) _ Hs Hen
              (or_intror (conj eq_refl eq_refl)))
    as (Hs1 & Hp1 & Hi1 & Hsel1 & Hsub1).
  rewrite <- Hp1 in Hen.
  destruct (mode_event_step _ (KeyDown CtrlS) _ Hs1 Hen
              (or_intror (conj eq_refl eq_refl)))
    as (Hs2 & Hp2 & Hi2 & Hsel2 & Hsub2).
  rewrite <- Hp2 in Hen.
  destruct (mode_event_step _ (KeyDown CtrlS) _ Hs2 Hen
              (or_intror (conj eq_refl eq_refl)))
    as (Hs3 & Hp3 & Hi3 & Hsel3 & Hsub3).
  rewrite !added_cons, !onSubmit_calls_app, Hsub1, Hsub2, Hsub3.
  rewrite !run_cons.
  assert (Hrun : forall x : World, run [] x = x) by reflexivity.
  rewrite !Hrun, added_nil.
  rewrite Hi3, Hsel3, Hp2, Hi2, Hsel2, Hp1, Hi1, Hsel1.
  destruct (selected w); cbn [nextAction];
    repeat (case_bool_decide; try (exfalso; intuition congruence; fail));
    split; try reflexivity; split; reflexivity.
Qed.

Lemma ctrl_s_round_submits_once_witness :
  let w := run [SelectChange Filter; InputChange "err"]
             (mount sampleProps) in
  synced w = true /\ disabled (props w) = false /\ input w <> "" /\
  let w' := run [KeyDown CtrlS; KeyDown CtrlS; KeyDown CtrlS] w in
  onSubmit_calls (added w w') = [CallOnSubmit 1 Search "err"] /\
  input w' = "err" /\ selected w' = Filter.
Proof.
  cbv zeta.
  assert (Hne : input (run [SelectChange Filter; InputChange "err"]
                         (mount sampleProps)) <> "")
    by (vm_compute; intros H; discriminate H).
  do 2 (split; [reflexivity|]). split; [exact Hne|].
  exact (ctrl_s_round_submits_once
           (run [SelectChange Filter; InputChange "err"] (mount sampleProps))
           eq_refl eq_refl Hne).
Defined.

(** X18: submits are not deduplicated: leaving Search for another mode
    and picking Search again submits the unchanged, non-empty pattern once
    more, and leaves it in the input. *)
Theorem leaving_and_returning_resubmits w m :
  synced w = true -> disabled (props w) = false ->
  selected w = Search -> m <> Search -> input w <> "" ->
  let w' := run [SelectChange m; SelectChange Search] w in
  onSubmit_calls (added w w')
    = [CallOnSubmit (onSubmit (props w)) Search (input w)] /\
  input w' = input w /\ selected w' = Search.
Proof.
  intros Hs Hen Hsel Hm Hne w'. subst w'.
  destruct (mode_event_step w (SelectChange m) m Hs Hen (or_introl eq_refl))
    as (Hs1 & Hp1 & Hi1 & Hsel1 & Hsub1).
  rewrite <- Hp1 in Hen.
  destruct (mode_event_step _ (SelectChange Search) Search Hs1 Hen
              (or_introl eq_refl))
    as (Hs2 & Hp2 & Hi2 & Hsel2 & Hsub2).
  rewrite !added_cons, !onSubmit_calls_app, Hsub1, Hsub2.
  rewrite !run_cons.
  assert (Hrun : forall x : World, run [] x = x) by reflexivity.
  rewrite !Hrun, added_nil.
  rewrite Hi2, Hsel2, Hp1, Hi1, Hsel1.
  rewrite (bool_decide_eq_false_2 (selected w <> Search /\ _))
    by (intros (H & _); apply H; exact Hsel).
  rewrite bool_decide_eq_true_2 by done.
  split; [reflexivity|]. split; reflexivity.
Qed.

Lemma leaving_and_returning_resubmits_witness :
  let w := run [InputChange "err"; InputKeyPress "Enter"]
             (mount sampleProps) in
  synced w = true /\ disabled (props w) = false /\
  selected w = Search /\ Highlight <> Search /\ input w <> "" /\
  let w' := run [SelectChange Highlight; SelectChange Search] w in
  onSubmit_calls (added w w') = [CallOnSubmit 1 Search "err"] /\
  input w' = "err" /\ selected w' = Search.
Proof.
  cbv zeta.
  assert (Hm : Highlight <> Search) by (intros H; discriminate H).
  assert (Hne : input (run [InputChange "err"; InputKeyPress "Enter"]
                         (mount sampleProps)) <> "")
    by (vm_compute; intros H; discriminate H).
  do 3 (split; [reflexivity|]). split; [exact Hm|]. split; [exact Hne|].
  exact (leaving_and_returning_resubmits
           (run [InputChange "err"; InputKeyPress "Enter"]
              (mount sampleProps))
           Highlight eq_refl eq_refl eq_refl Hm Hne).
Defined.


(** *** A pending call through any run of events *)

Lemma In_byDeadline_of x l : In x l -> In x (byDeadline l).
Proof.
  unfold byDeadline.
  assert (Hins : forall t acc, In x (insertByDeadline t acc) <->
                               x = t \/ In x acc).
  { intros t acc. induction acc as [|u acc IH]; cbn [insertByDeadline].
    - cbn. intuition.
    - destruct (t_deadline t <? t_deadline u)%nat; cbn; cbn in IH;
        intuition. }
  assert (H : forall acc, In x acc \/ In x l ->
              In x (fold_left
                      (fun sorted t => insertByDeadline t sorted) l acc)).
  { induction l as [|t l IH]; intros acc [Hin|Hin]; cbn in *;
      try assumption; try contradiction.
    - apply IH. left. apply Hins. right. exact Hin.
    - destruct Hin as [->|Hin].
      + apply IH. left. apply Hins. left. reflexivity.
      + apply IH. right. exact Hin. }
  intros Hin. apply H. right. exact Hin.
Qed.

Lemma due_timer_fires w t ms :
  synced w = true -> In t (timers w) -> t_deadline t <= now w + ms ->
  In (fire t) (emitted (Elapse ms) w).
Proof.
  intros Hs Hin Hdue.
  destruct (elapse_fields w ms Hs) as (_ & Hl & _).
  rewrite emitted_added, (added_app _ _ _ Hl).
  apply in_map, In_byDeadline_of, filter_In. split; [exact Hin|].
  unfold due. apply Nat.leb_le. exact Hdue.
Qed.

Lemma edit_starts_timer w v :
  synced w = true -> validator (props w) v = true ->
  synced (step (InputChange v) w) = true /\
  In (editTimer w v) (timers (step (InputChange v) w)) /\
  now (step (InputChange v) w) = now w /\
  (owned w ->
   timers (step (InputChange v) w) = [editTimer w v] /\
   log (step (InputChange v) w) = log w).
Proof.
  intros Hs Hv. split; [apply step_synced; exact Hs|].
  rewrite step_quiet by done.
  apply synced_spec in Hs as (He & Hm & d & Hd & Hfn & Hw).
  unfold editTimer. sb_unfold. cbn. rewrite Hv. cbn. rewrite Hd. cbn.
  split; [|split].
  - destruct (d_timer d); cbn; rewrite Hfn, Hw; apply in_or_app; right;
      left; reflexivity.
  - destruct (d_timer d); reflexivity.
  - intros [Ht|(t & d' & Ht & Hd' & Hid)].
    + destruct (d_timer d); cbn; rewrite Ht, Hfn, Hw; split; reflexivity.
    + rewrite Hd in Hd'. simplify_eq. rewrite Hid. cbn. rewrite Ht. cbn.
      rewrite Nat.eqb_refl. cbn. rewrite Hfn, Hw. split; reflexivity.
Qed.

Lemma pending_survives_step e w t :
  synced w = true -> isNoEdit e = true -> In t (timers w) ->
  now w + elapsed [e] < t_deadline t ->
  synced (step e w) = true /\ In t (timers (step e w)) /\
  now (step e w) = now w + elapsed [e] /\
  (timers w = [t] ->
   timers (step e w) = [t] /\ onChange_calls (emitted e w) = []).
Proof.
  intros Hs Hne Hin Hlt. split; [apply step_synced; exact Hs|].
  destruct e as [v|key| |v|k|ms|p']; try discriminate Hne.
  5: {
    destruct (elapse_fields w ms Hs) as (Ht & Hl & Hn & _).
    cbn [elapsed] in *. rewrite Nat.add_0_r in *.
    assert (Hnd : due (now w + ms) t = false)
      by (unfold due; apply Nat.leb_gt; exact Hlt).
    split; [|split; [exact Hn|]].
    - rewrite Ht. apply filter_In. split; [exact Hin|].
      rewrite Hnd. reflexivity.
    - intros Hone. rewrite Ht, emitted_added, (added_app _ _ _ Hl), Hone.
      cbn [List.filter]. rewrite Hnd. cbn [negb].
      rewrite byDeadline_nil. split; reflexivity. }
  all: cbn [elapsed]; rewrite Nat.add_0_r.
  all: match goal with
       | |- context [step ?e ?w0] =>
           destruct (quiet_timers e w0) as [Ht Hn];
             [intros v' H; discriminate H|intros ms' H; discriminate H|];
           rewrite Ht, Hn;
           split; [exact Hin|split; [reflexivity|]];
           intros Hone; split; [exact Hone|];
           apply emitted_no_onChange; intros ms' H; discriminate H
       end.
Qed.

Lemma elapsed_cons e es : elapsed (e :: es) = elapsed [e] + elapsed es.
Proof. destruct e; cbn [elapsed]; lia. Qed.

Lemma pending_survives_run es : forall w t,
  synced w = true -> forallb isNoEdit es = true -> In t (timers w) ->
  now w + elapsed es < t_deadline t ->
  synced (run es w) = true /\ In t (timers (run es w)) /\
  now (run es w) = now w + elapsed es /\
  (timers w = [t] ->
   timers (run es w) = [t] /\ onChange_calls (added w (run es w)) = []).
Proof.
  induction es as [|e es IH]; intros w t Hs Hne Hin Hlt.
  - assert (Hrun : run [] w = w) by reflexivity. rewrite Hrun.
    cbn [elapsed]. rewrite Nat.add_0_r. rewrite added_nil. auto.
  - cbn [forallb] in Hne. apply andb_true_iff in Hne as [Hne1 Hne].
    rewrite elapsed_cons in Hlt.
    destruct (pending_survives_step e w t Hs Hne1 Hin ltac:(lia))
      as (Hs1 & Hin1 & Hn1 & Hone1).
    destruct (IH (step e w) t Hs1 Hne Hin1) as (Hs2 & Hin2 & Hn2 & Hone2);
      [rewrite Hn1; lia|].
    rewrite added_cons, run_cons, elapsed_cons.
    split; [exact Hs2|]. split; [exact Hin2|].
    split; [rewrite Hn2, Hn1; lia|].
    intros Hone. destruct (Hone1 Hone) as [Ht1 Hno1].
    destruct (Hone2 Ht1) as [Ht2 Hno2].
    split; [exact Ht2|]. rewrite onChange_calls_app, Hno1, Hno2.
    reflexivity.
Qed.

(** C2, as the code has it: a valid edit is made in any world of the
    bar, and before its 1000ms have passed anything happens but a further
    edit: modes picked in the select or cycled with Ctrl+S, any number of
    them, submits, new props, pauses. The pending call is neither dropped
    nor rebuilt: when its 1000ms have passed it is forwarded with the mode
    of the render in which the edit was made, whatever the mode is by
    then. When no other call was pending in another closure, nothing is
    forwarded before and this call is the only one. *)
Theorem pending_change_keeps_captured_mode w v es ms :
  synced w = true -> validator (props w) v = true ->
  forallb isNoEdit es = true ->
  elapsed es < 1000 -> 1000 <= elapsed es + ms ->
  let w' := run (InputChange v :: es) w in
  In (CallOnChange (onChange (props w)) (selected w) v)
     (emitted (Elapse ms) w') /\
  (owned w ->
   onChange_calls (added w w') = [] /\
   emitted (Elapse ms) w'
     = [CallOnChange (onChange (props w)) (selected w) v]).
Proof.
  intros Hs Hv Hne Hlt Hms w'. subst w'. rewrite run_cons.
  destruct (edit_starts_timer w v Hs Hv) as (Hs1 & Hin1 & Hn1 & Hown1).
  destruct (pending_survives_run es (step (InputChange v) w)
              (editTimer w v) Hs1 Hne Hin1)
    as (Hs2 & Hin2 & Hn2 & Hone2);
    [rewrite Hn1; unfold editTimer; cbn [t_deadline]; lia|].
  split.
  - rewrite <- fire_editTimer. apply due_timer_fires; [exact Hs2|exact Hin2|].
    rewrite Hn2, Hn1. unfold editTimer. cbn [t_deadline]. lia.
  - intros Hown. destruct (Hown1 Hown) as [Ht1 Hl1].
    destruct (Hone2 Ht1) as [Ht2 Hno2]. split.
    + assert (Hl : log (run es (step (InputChange v) w))
                   = log w ++ added (step (InputChange v) w)
                                (run es (step (InputChange v) w)))
        by (rewrite log_run, Hl1; reflexivity).
      rewrite (added_app _ _ _ Hl). exact Hno2.
    + apply pending_edit_fires; [exact Hs2|exact Ht2|].
      rewrite Hn2, Hn1. lia.
Qed.

Lemma pending_change_keeps_captured_mode_witness :
  let w := mount sampleProps in
  let es := [Elapse 200; KeyDown CtrlS; Elapse 100; SelectChange Highlight;
             InputKeyPress "Enter"; Elapse 100] in
  synced w = true /\ validator (props w) "err" = true /\
  forallb isNoEdit es = true /\
  elapsed es < 1000 /\ 1000 <= elapsed es + 600 /\
  owned w /\
  let w' := run (InputChange "err" :: es) w in
  selected w' = Highlight /\
  In (CallOnChange 2 Search "err") (emitted (Elapse 600) w') /\
  onChange_calls (added w w') = [] /\
  emitted (Elapse 600) w' = [CallOnChange 2 Search "err"].
Proof.
  cbv zeta.
  assert (Hlt : elapsed [Elapse 200; KeyDown CtrlS; Elapse 100;
                         SelectChange Highlight; InputKeyPress "Enter";
                         Elapse 100] < 1000) by (cbn; lia).
  assert (Hms : 1000 <= elapsed [Elapse 200; KeyDown CtrlS; Elapse 100;
                                 SelectChange Highlight;
                                 InputKeyPress "Enter"; Elapse 100] + 600)
    by (cbn; lia).
  assert (Hown : owned (mount sampleProps)) by (left; reflexivity).
  do 3 (split; [reflexivity|]). split; [exact Hlt|]. split; [exact Hms|].
  split; [exact Hown|]. split; [reflexivity|].
  destruct (pending_change_keeps_captured_mode (mount sampleProps) "err"
              [Elapse 200; KeyDown CtrlS; Elapse 100; SelectChange Highlight;
               InputKeyPress "Enter"; Elapse 100] 600
              eq_refl eq_refl eq_refl Hlt Hms) as [Hin Hexact].
  split; [exact Hin|]. exact (Hexact Hown).
Defined.


End SearchBarFacts.

(* ===================================================================== *)
(** ** Facts about the log line row                                       *)
(* ===================================================================== *)

Module AnsiiRowFacts.
Import AnsiiRow.

(** *** Letters without case *)

Lemma nat_of_ascii_inj a b : nat_of_ascii a = nat_of_ascii b -> a = b.
Proof.
  intros H. rewrite <- (ascii_nat_embedding a), <- (ascii_nat_embedding b).
  rewrite H. reflexivity.
Qed.

Lemma isUpper_spec c :
  isUpper c = true <-> 65 <= nat_of_ascii c <= 90.
Proof.
  unfold isUpper. rewrite andb_true_iff, !Nat.leb_le. reflexivity.
Qed.

Lemma nat_of_lower c :
  nat_of_ascii (lower c)
  = if isUpper c then nat_of_ascii c + 32 else nat_of_ascii c.
Proof.
  unfold lower. destruct (isUpper c) eqn:Hu; [|reflexivity].
  apply isUpper_spec in Hu. apply nat_ascii_embedding. lia.
Qed.

Lemma eqb_ci_sameLetter a b : eqb_ci a b = true <-> sameLetter a b.
Proof.
  unfold eqb_ci, sameLetter. rewrite Ascii.eqb_eq.
  assert (Heq : lower a = lower b <->
                nat_of_ascii (lower a) = nat_of_ascii (lower b))
    by (split; [intros ->; reflexivity|apply nat_of_ascii_inj]).
  assert (Hab : a = b <-> nat_of_ascii a = nat_of_ascii b)
    by (split; [intros ->; reflexivity|apply nat_of_ascii_inj]).
  rewrite Heq, Hab, !nat_of_lower.
  destruct (isUpper a) eqn:Ha, (isUpper b) eqn:Hb.
  all: try apply isUpper_spec in Ha; try apply isUpper_spec in Hb.
  all: try (assert (~ 65 <= nat_of_ascii a <= 90)
              by (rewrite <- isUpper_spec, Ha; discriminate)).
  all: try (assert (~ 65 <= nat_of_ascii b <= 90)
              by (rewrite <- isUpper_spec, Hb; discriminate)).
  all: lia.
Qed.

Lemma isLineTerminator_spec c :
  isLineTerminator c = false <->
  nat_of_ascii c <> 10 /\ nat_of_ascii c <> 13.
Proof.
  unfold isLineTerminator. rewrite orb_false_iff, !Nat.eqb_neq.
  reflexivity.
Qed.

(** *** The matcher against what it is to match *)

Lemma nullable_Matches r : nullable r = true <-> Matches r [].
Proof.
  induction r as [| |c| |r1 IH1 r2 IH2|r1 IH1 r2 IH2|r IH]; cbn.
  - split; [discriminate|]. intros H. inversion H.
  - split; [constructor|reflexivity].
  - split; [discriminate|]. intros H. inversion H.
  - split; [discriminate|]. intros H. inversion H.
  - rewrite andb_true_iff, IH1, IH2. split.
    + intros [H1 H2]. apply (MSeq r1 r2 [] [] H1 H2).
    + intros H. inversion H as [| | |? ? s1 s2 H1 H2 Hr Hs| | | |]. subst.
      apply app_eq_nil in Hs as [-> ->]. auto.
  - rewrite orb_true_iff, IH1, IH2. split.
    + intros [H|H]; [apply MAltL|apply MAltR]; exact H.
    + intros H. inversion H; subst; auto.
  - split; [constructor|reflexivity].
Qed.

Lemma Matches_Star_cons r c s :
  Matches (Star r) (c :: s) ->
  exists s1 s2, s = s1 ++ s2 /\ Matches r (c :: s1) /\ Matches (Star r) s2.
Proof.
  intros H. remember (Star r) as r' eqn:Hr. remember (c :: s) as s' eqn:Hs.
  revert s Hs.
  induction H as [| | | | | | |r0 s1 s2 H1 _ H2 IH2]; intros tl Htl;
    try discriminate.
  injection Hr as ->.
  destruct s1 as [|c1 s1].
  - cbn in Htl. apply (IH2 eq_refl tl Htl).
  - cbn in Htl. injection Htl as -> <-. exists s1, s2. auto.
Qed.

Lemma deriv_Matches r : forall c s,
  Matches (deriv c r) s <-> Matches r (c :: s).
Proof.
  induction r as [| |a| |r1 IH1 r2 IH2|r1 IH1 r2 IH2|r IH]; intros c s; cbn.
  - split; intros H; inversion H.
  - split; intros H; inversion H.
  - destruct (eqb_ci a c) eqn:Hac.
    + apply eqb_ci_sameLetter in Hac. split; intros H.
      * inversion H; subst. constructor. exact Hac.
      * inversion H; subst. constructor.
    + split; intros H; [inversion H|].
      inversion H as [|? ? Hsame| | | | | |]; subst.
      apply eqb_ci_sameLetter in Hsame. congruence.
  - destruct (isLineTerminator c) eqn:Hc.
    + split; intros H; [inversion H|].
      inversion H as [| |? H10 H13| | | | |]; subst.
      assert (isLineTerminator c = false)
        by (apply isLineTerminator_spec; auto).
      congruence.
    + apply isLineTerminator_spec in Hc as [H10 H13]. split; intros H.
      * inversion H; subst. constructor; assumption.
      * inversion H; subst. constructor.
  - assert (Hseq : Matches (Seq (deriv c r1) r2) s <->
                   exists s1 s2, s = s1 ++ s2 /\ Matches r1 (c :: s1)
                                 /\ Matches r2 s2).
    { split.
      - intros H. inversion H as [| | |? ? s1 s2 H1 H2| | | |]; subst.
        exists s1, s2. rewrite <- IH1. auto.
      - intros (s1 & s2 & -> & H1 & H2). constructor; [|exact H2].
        apply IH1. exact H1. }
    assert (Hsplit : Matches (Seq r1 r2) (c :: s) <->
                     (exists s1 s2, s = s1 ++ s2 /\ Matches r1 (c :: s1)
                                    /\ Matches r2 s2)
                     \/ (Matches r1 [] /\ Matches r2 (c :: s))).
    { split.
      - intros H. inversion H as [| | |? ? s1 s2 H1 H2 Hr Hs| | | |]; subst.
        destruct s1 as [|c1 s1]; cbn in Hs.
        + right. subst. auto.
        + injection Hs as -> <-. left. exists s1, s2. auto.
      - intros [(s1 & s2 & -> & H1 & H2)|[H1 H2]].
        + apply (MSeq r1 r2 (c :: s1) s2 H1 H2).
        + apply (MSeq r1 r2 [] (c :: s) H1 H2). }
    rewrite Hsplit. destruct (nullable r1) eqn:Hn.
    + apply nullable_Matches in Hn. split.
      * intros H. inversion H; subst.
        -- left. apply Hseq. assumption.
        -- right. split; [exact Hn|]. apply IH2. assumption.
      * intros [H|[_ H]].
        -- apply MAltL, Hseq, H.
        -- apply MAltR, IH2, H.
    + rewrite Hseq. split; [auto|]. intros [H|[H _]]; [exact H|].
      apply nullable_Matches in H. congruence.
  - split; intros H; inversion H; subst.
    + apply MAltL, IH1. assumption.
    + apply MAltR, IH2. assumption.
    + apply MAltL, IH1. assumption.
    + apply MAltR, IH2. assumption.
  - split.
    + intros H. inversion H as [| | |? ? s1 s2 H1 H2| | | |]; subst.
      apply (MStarApp r (c :: s1) s2); [apply IH; exact H1|exact H2].
    + intros H. apply Matches_Star_cons in H as (s1 & s2 & -> & H1 & H2).
      constructor; [apply IH; exact H1|exact H2].
Qed.

Lemma longestPrefix_Some : forall s r n,
  longestPrefix r s = Some n ->
  n <= length s /\ Matches r (firstn n s).
Proof.
  induction s as [|c s IH]; intros r n H; cbn [longestPrefix] in H.
  - destruct (nullable r) eqn:Hn; [|discriminate]. injection H as <-.
    split; [reflexivity|]. apply nullable_Matches. exact Hn.
  - destruct (longestPrefix (deriv c r) s) as [m|] eqn:Hm.
    + injection H as <-. apply IH in Hm as [Hle Hmatch]. split.
      * cbn. lia.
      * cbn [firstn]. apply deriv_Matches. exact Hmatch.
    + destruct (nullable r) eqn:Hn; [|discriminate]. injection H as <-.
      split; [cbn; lia|]. apply nullable_Matches. exact Hn.
Qed.

Lemma longestPrefix_None : forall s r,
  longestPrefix r s = None ->
  forall pre post, s = pre ++ post -> ~ Matches r pre.
Proof.
  induction s as [|c s IH]; intros r H pre post Hs Hmatch;
    cbn [longestPrefix] in H.
  - symmetry in Hs. apply app_eq_nil in Hs as [-> _].
    apply nullable_Matches in Hmatch. rewrite Hmatch in H. discriminate.
  - destruct (longestPrefix (deriv c r) s) eqn:Hm; [discriminate|].
    destruct pre as [|c' pre].
    + apply nullable_Matches in Hmatch. rewrite Hmatch in H. discriminate.
    + cbn in Hs. injection Hs as <- ->.
      apply deriv_Matches in Hmatch.
      exact (IH _ Hm pre post eq_refl Hmatch).
Qed.

Lemma exec_Some : forall s r pos len,
  exec r s = Some (pos, len) ->
  pos + len <= length s /\ Matches r (firstn len (skipn pos s)).
Proof.
  induction s as [|c s IH]; intros r pos len H; cbn [exec] in H.
  - destruct (longestPrefix r []) as [n|] eqn:Hn; [|discriminate].
    injection H as <- <-. apply longestPrefix_Some in Hn. exact Hn.
  - destruct (longestPrefix r (c :: s)) as [n|] eqn:Hn.
    + injection H as <- <-. apply longestPrefix_Some in Hn. exact Hn.
    + destruct (exec r s) as [[p l]|] eqn:He; [|discriminate].
      cbn in H. injection H as <- <-.
      apply IH in He as [Hle Hmatch]. split; [cbn; lia|exact Hmatch].
Qed.

Lemma exec_None : forall s r,
  exec r s = None ->
  forall pre mid post, s = pre ++ mid ++ post -> ~ Matches r mid.
Proof.
  induction s as [|c s IH]; intros r H pre mid post Hs; cbn [exec] in H.
  - destruct (longestPrefix r []) eqn:Hn; [discriminate|].
    symmetry in Hs. apply app_eq_nil in Hs as [-> Hs]. cbn in Hs.
    exact (longestPrefix_None _ _ Hn mid post (eq_sym Hs)).
  - destruct (longestPrefix r (c :: s)) eqn:Hn; [discriminate|].
    destruct pre as [|c' pre].
    + exact (longestPrefix_None _ _ Hn mid post Hs).
    + destruct (exec r s) eqn:He; [discriminate|].
      cbn in Hs. injection Hs as <- ->.
      exact (IH _ He pre mid post eq_refl).
Qed.

Lemma exec_is_Some r s :
  is_Some (exec r s) <->
  exists pre mid post, s = pre ++ mid ++ post /\ Matches r mid.
Proof.
  split.
  - intros [[pos len] H]. apply exec_Some in H as [_ Hmatch].
    exists (firstn pos s), (firstn len (skipn pos s)),
           (skipn len (skipn pos s)).
    split; [|exact Hmatch]. rewrite !firstn_skipn. reflexivity.
  - intros (pre & mid & post & Hs & Hmatch).
    destruct (exec r s) eqn:He; [eexists; reflexivity|].
    exfalso. exact (exec_None _ _ He pre mid post Hs Hmatch).
Qed.

Lemma matches_spec t text :
  matches t text = true <->
  exists pre mid post,
    list_ascii_of_string text = pre ++ mid ++ post /\ Matches t mid.
Proof. unfold matches. rewrite bool_decide_eq_true. apply exec_is_Some. Qed.

Lemma literal_Matches : forall p s,
  Matches (literal p) s <->
  Forall2 sameLetter (list_ascii_of_string p) s.
Proof.
  induction p as [|c p IH]; intros s; cbn [literal list_ascii_of_string].
  - split; intros H; inversion H; constructor.
  - split.
    + intros H. inversion H as [| | |? ? s1 s2 H1 H2| | | |]; subst.
      inversion H1; subst. cbn. constructor; [assumption|].
      apply IH. exact H2.
    + intros H. inversion H as [|? d ? s2 Hcd Hrest]; subst.
      apply (MSeq (Chr c) (literal p) [d] s2).
      * constructor. exact Hcd.
      * apply IH. exact Hrest.
Qed.

Lemma inRange_spec r i :
  inRange r i = true <->
  (forall r0, r = Some r0 ->
     lowerRange r0 <= i /\ forall up, upperRange r0 = Some up -> i <= up).
Proof.
  unfold inRange. destruct r as [[lo [up|]]|]; cbn [lowerRange upperRange].
  - rewrite andb_true_iff, !Nat.leb_le. split.
    + intros [Hlo Hup] r0 Hr0. injection Hr0 as <-. cbn.
      split; [exact Hlo|]. intros up' Hup'. injection Hup' as <-. exact Hup.
    + intros H. destruct (H _ eq_refl) as [Hlo Hup]. cbn in *.
      split; [exact Hlo|]. apply Hup. reflexivity.
  - rewrite andb_true_r, Nat.leb_le. split.
    + intros Hlo r0 Hr0. injection Hr0 as <-. cbn.
      split; [exact Hlo|]. intros up' Hup'. discriminate Hup'.
    + intros H. destruct (H _ eq_refl) as [Hlo _]. exact Hlo.
  - split; [|reflexivity]. intros _ r0 Hr0. discriminate Hr0.
Qed.

(** *** Texts and the tree of a row *)

Lemma length_list_ascii s :
  length (list_ascii_of_string s) = String.length s.
Proof. induction s as [|c s IH]; [done|]. cbn. f_equal. exact IH. Qed.

Lemma substring_0_length s : substring 0 (String.length s) s = s.
Proof. induction s as [|c s IH]; [done|]. cbn. f_equal. exact IH. Qed.

Lemma append_cons c s1 s2 :
  String.append (String c s1) s2 = String c (String.append s1 s2).
Proof. reflexivity. Qed.

Lemma substring_empty n m : substring n m "" = "".
Proof. destruct n, m; reflexivity. Qed.

Lemma append_empty_r s : String.append s "" = s.
Proof.
  induction s as [|c s IH]; [done|]. rewrite append_cons, IH. reflexivity.
Qed.

Lemma substring_app : forall s a b c,
  a + b + c <= String.length s ->
  String.append (substring a b s) (substring (a + b) c s)
  = substring a (b + c) s.
Proof.
  induction s as [|x s IH]; intros a b c H.
  - rewrite !substring_empty. reflexivity.
  - destruct a as [|a]; cbn in H.
    + destruct b as [|b]; [reflexivity|].
      cbn. rewrite append_cons. f_equal. apply (IH 0 b c). lia.
    + cbn. apply IH. lia.
Qed.

Lemma highlightText_content t text :
  textContent (Element "div" None (highlightText t text)) = text.
Proof.
  unfold highlightText.
  destruct (exec t (list_ascii_of_string text)) as [[pos n]|] eqn:Hf.
  - apply exec_Some in Hf as [Hle _]. rewrite length_list_ascii in Hle.
    cbn. rewrite !append_empty_r.
    rewrite (substring_app text pos) by lia.
    rewrite (substring_app text 0 pos) by (cbn; lia).
    replace (pos + _) with (String.length text) by lia.
    apply substring_0_length.
  - cbn. apply append_empty_r.
Qed.

Lemma highlightText_query t text :
  queryByDataCy "highlight" (Element "div" (Some "ansii-row")
                               (highlightText t text))
  = (fun m => Element "mark" (Some "highlight")
                [Text (substring (fst m) (snd m) text)])
    <$> exec t (list_ascii_of_string text).
Proof.
  unfold highlightText.
  destruct (exec t (list_ascii_of_string text)) as [[pos n]|]; reflexivity.
Qed.

(** C7: a row is rendered exactly when the accessor returns a line. For
    an undefined line nothing is rendered, so no row container is found;
    for a defined line, the empty string included, the row container is
    found and its text is that line: empty for the empty string. *)
Theorem row_absent_vs_empty d i :
  match getLine d i with
  | None =>
      render d i = None /\
      screen_queryByDataCy "ansii-row" (render d i) = None
  | Some text =>
      exists row, render d i = Some row /\
        screen_queryByDataCy "ansii-row" (render d i) = Some row /\
        textContent row = text
  end /\
  hasRow d i = bool_decide (is_Some (getLine d i)).
Proof.
  unfold hasRow, render. destruct (getLine d i) as [text|]; cbn.
  - split; [|reflexivity]. eexists. split; [reflexivity|].
    split; [reflexivity|].
    destruct (searchTerm d) as [t|]; [destruct (inRange (range d) i)|];
      try apply highlightText_content; cbn; apply append_empty_r.
  - split; [split|]; reflexivity.
Qed.

(** C8: the highlight element is rendered exactly when the line is
    defined, a search term is set, some part of the line matches it, upper
    and lower case taken as the same letter, and the index is in range: at
    or above the lower bound and, when there is an upper bound, at or
    below it, so that the line at the upper bound is highlighted and the
    one after it is not; without a range every index is in range. *)
Theorem highlight_iff_match_in_range d i :
  highlighted d i = true <->
  exists text t,
    getLine d i = Some text /\ searchTerm d = Some t /\
    (exists pre mid post,
       list_ascii_of_string text = pre ++ mid ++ post /\ Matches t mid) /\
    (forall r, range d = Some r ->
       lowerRange r <= i /\
       forall up, upperRange r = Some up -> i <= up).
Proof.
  unfold highlighted. rewrite bool_decide_eq_true. unfold render.
  destruct (getLine d i) as [text|] eqn:Hline.
  2: { split; [intros [x Hx]; discriminate Hx|].
       intros (text & t & Hl & _). discriminate Hl. }
  destruct (searchTerm d) as [t|] eqn:Hterm.
  2: { split; [intros [x Hx]; discriminate Hx|].
       intros (text' & t & _ & Ht & _). discriminate Ht. }
  cbn [screen_queryByDataCy].
  destruct (inRange (range d) i) eqn:Hrange.
  - rewrite highlightText_query, fmap_is_Some, exec_is_Some.
    pose proof (proj1 (inRange_spec _ _) Hrange) as Hr. split.
    + intros Hm. exists text, t. auto.
    + intros (text' & t' & Hl & Ht & Hm & _).
      injection Hl as <-. injection Ht as <-. exact Hm.
  - split; [intros [x Hx]; discriminate Hx|].
    intros (text' & t' & _ & _ & _ & Hr).
    pose proof (proj2 (inRange_spec _ _) Hr) as Hin. congruence.
Qed.

(** The assertions of the test file, replayed. *)

Example test_getLine_undefined :
  screen_queryByDataCy "ansii-row"
    (render {| getLine := fun _ => None; searchTerm := searchTerm data;
               range := range data |} 0) = None.
Proof. reflexivity. Qed.

Example test_getLine_empty_string :
  is_Some (screen_queryByDataCy "ansii-row"
    (render {| getLine := fun _ => Some ""; searchTerm := searchTerm data;
               range := range data |} 0)).
Proof. eexists. reflexivity. Qed.

Example test_highlight_matching_text :
  textContent <$> screen_queryByDataCy "highlight"
    (render {| getLine := getLine data;
               searchTerm := Some (literal "highlight me");
               range := range data |} 9) = Some "highlight me".
Proof. vm_compute. reflexivity. Qed.

Example test_highlight_within_range :
  textContent <$> screen_queryByDataCy "highlight"
    (render {| getLine := getLine data;
               searchTerm := Some (literal "highlight me");
               range := Some {| lowerRange := 0; upperRange := Some 10 |} |}
       9) = Some "highlight me".
Proof. vm_compute. reflexivity. Qed.

Example test_highlight_outside_range :
  let row := render {| getLine := getLine data;
                       searchTerm := Some (literal "highlight me");
                       range := Some {| lowerRange := 0;
                                        upperRange := Some 8 |} |} 9 in
  textContent <$> screen_queryByDataCy "ansii-row" row = logLines !! 9 /\
  screen_queryByDataCy "highlight" row = None.
Proof. split; vm_compute; reflexivity. Qed.

End AnsiiRowFacts.
